(** * FISCO-BCOS: state key codec and EVM host context

    A shallow embedding of
      - bcos-storage/StateKVResolver.h   (flat storage key codec), and
      - bcos-transaction-executor/vm/HostContext.h (execution host),
    together with the properties the design document states about them. *)

From Stdlib Require Import ZArith String Ascii List Lia.
From stdpp Require Import gmap strings list pretty.

Local Open Scope Z_scope.

(** Byte buffers ([std::string_view], [bytesConstRef], [evmc_bytes32],
    [evmc_address]) are sequences of 8-bit characters. *)
Abbreviation bytes := string (only parsing).

(* ===================================================================== *)
(** * Part I: StateKVResolver.h                                           *)
(* ===================================================================== *)

Module StateKeyResolver.

(** Exceptions that can leave [decode]. *)
Inductive Error : Type :=
| InvalidStateKey        (* struct InvalidStateKey : public Error *)
| out_of_range.          (* std::out_of_range of string_view::substr *)

Definition TABLE_KEY_SPLIT : ascii := ":"%char.

(** [std::string_view::find(char)]: index of the first occurrence, or
    [npos] (here [None]). *)
Fixpoint find (c : ascii) (view : string) : option nat :=
  match view with
  | EmptyString => None
  | String a rest =>
      if Ascii.eqb a c then Some O
      else match find c rest with
           | Some pos => Some (S pos)
           | None => None
           end
  end.

(** [std::string_view::substr(pos, count)]: throws when [pos > size()],
    otherwise the characters [pos .. min(pos+count, size())). *)
Definition substr (pos count : nat) (view : string) : Error + string :=
  if (String.length view <? pos)%nat then inl out_of_range
  else inr (String.substring pos count view).

(** [encode]: table, then the separator, then the key, appended to an
    initially empty buffer. *)
Definition encode (stateKey : string * string) : string :=
  let '(tableName, key) := stateKey in
  let buffer := EmptyString in
  let buffer := buffer +:+ tableName in
  let buffer := buffer +:+ String TABLE_KEY_SPLIT EmptyString in
  let buffer := buffer +:+ key in
  buffer.

Definition empty (range : string) : bool :=
  match range with EmptyString => true | _ => false end.

Definition decode (buffer : string) : Error + (string * string) :=
  let view := buffer in
  match find TABLE_KEY_SPLIT view with
  | None => inl InvalidStateKey
  | Some pos =>
      match substr 0 pos view with
      | inl e => inl e
      | inr tableRange =>
          match substr (pos + 1) (String.length view) view with
          | inl e => inl e
          | inr keyRange =>
              if empty tableRange || empty keyRange
              then inl InvalidStateKey
              else inr (tableRange, keyRange)
          end
      end
  end.

(** A buffer contains the separator at some index. *)
Definition has_split (s : string) : Prop :=
  exists i, String.get i s = Some TABLE_KEY_SPLIT.

End StateKeyResolver.

(* ===================================================================== *)
(** * Part II: HostContext.h                                              *)
(* ===================================================================== *)

(** ** EVMC data (evmc.h) *)

Inductive evmc_call_kind : Type :=
| EVMC_CALL | EVMC_DELEGATECALL | EVMC_CALLCODE | EVMC_CREATE | EVMC_CREATE2.

#[global] Instance evmc_call_kind_eq_dec : EqDecision evmc_call_kind.
Proof. solve_decision. Defined.

Record evmc_message : Type := {
  kind : evmc_call_kind;
  depth : Z;
  gas : Z;
  recipient : bytes;        (* evmc_address, 20 bytes *)
  sender : bytes;           (* evmc_address, 20 bytes *)
  input_data : bytes;
  value : bytes;            (* evmc_uint256be *)
  code_address : bytes      (* evmc_address, 20 bytes *)
}.

Record EVMCResult : Type := {
  status_code : Z;          (* evmc_status_code, EVMC_SUCCESS = 0 *)
  gas_left : Z;
  output_data : bytes;
  create_address : bytes
}.

Definition EVMC_SUCCESS : Z := 0.

(** [protocol::LogEntry(address, topics, data)] *)
Record LogEntry : Type := {
  log_address : bytes;
  log_topics : list bytes;
  log_data : bytes
}.

Record BlockHeader : Type := {
  number : Z;               (* int64_t *)
  version : Z;              (* uint32_t *)
  timestamp : Z             (* int64_t *)
}.

(** [n] zero bytes: a value-initialised [evmc_address] or [evmc_bytes32]. *)
Fixpoint zero_bytes (n : nat) : bytes :=
  match n with
  | O => EmptyString
  | S n' => String Ascii.zero (zero_bytes n')
  end.

(** [EMPTY_ADDRESS] of ../Common.h: the all-zero address. *)
Definition EMPTY_ADDRESS : bytes := zero_bytes 20.

(** [fromBigEndian<u160>]: the number a byte sequence denotes, most
    significant byte first. *)
Definition fromBigEndian (b : bytes) : Z :=
  fold_left (fun acc c => acc * 256 + Z.of_nat (nat_of_ascii c))
            (list_ascii_of_string b) 0.

(** ** Storage *)

(** Table names are interned in a [TableNamePool]; a handle
    ([TableNameID]) stands for the content it was made from, and two
    handles are equal exactly when their contents are. The handle is
    therefore represented by the content. *)
Abbreviation TableNameID := string (only parsing).

(** [StateKey = (table name id, raw key bytes)] *)
Abbreviation StateKey := (string * string)%type (only parsing).

(** [storage::Entry]: the value blob ([Entry::get], [Entry::set]). *)
Abbreviation Entry := string (only parsing).

Module Storage.

(** Modelled from the spec: the concrete class behind the template
    parameter [Storage] (a rollbackable state storage) is not part of the
    sources. The design document requires of it point reads, point
    writes that overwrite and are immediately visible, [current()]
    giving a cursor into the write history, and [rollback(savepoint)]
    discarding every write performed after the savepoint while leaving
    earlier writes intact. The storage is represented by its write
    history, most recent write first. *)
Definition t : Type := list ((string * string) * string).

Abbreviation Savepoint := nat (only parsing).

Fixpoint read (key : StateKey) (st : t) : option Entry :=
  match st with
  | [] => None
  | (k, entry) :: older => if decide (k = key) then Some entry else read key older
  end.

Definition write (key : StateKey) (entry : Entry) (st : t) : t :=
  (key, entry) :: st.

Definition current (st : t) : Savepoint := length st.

Definition rollback (savepoint : Savepoint) (st : t) : t :=
  drop (length st - savepoint) st.

(** [storage2::existsOne] *)
Definition existsOne (st : t) (key : StateKey) : bool :=
  match read key st with Some _ => true | None => false end.

(** The key/value view of a storage: what [read] returns for every key. *)
Definition contents (st : t) : gmap (string * string) string :=
  foldr (fun kv m => <[kv.1 := kv.2]> m) ∅ st.

End Storage.

(** ** Tasks: state shared by the call tree, and exceptions *)

(** What the hosts of one call tree share by reference: the storage
    ([Storage& m_rollbackableStorage]) and the call sequence counter
    ([int64_t& m_seq]; the model counts in [Z], which is what the code
    does as long as the counter stays in the range of [int64_t], beyond
    which [++m_seq] is undefined). [constructed] is a ghost history of
    the [HostContext] constructor: the message each host was built for
    and the value of [m_seq] at that moment, oldest first. *)
Record State : Type := {
  m_rollbackableStorage : Storage.t;
  m_seq : Z;
  constructed : list (evmc_message * Z)
}.

Inductive Exception : Type :=
| NotFoundCodeError                  (* struct NotFoundCodeError : bcos::Error *)
| runtime_error (what : string).     (* std::runtime_error *)

(** Outcome of a coroutine: a value, a thrown exception, or [Exhausted]
    when the nesting of hosts exceeds the depth the model was run with. *)
Inductive Outcome (A : Type) : Type :=
| Return (a : A)
| Throw (e : Exception)
| Exhausted.
Arguments Return {A} a.
Arguments Throw {A} e.
Arguments Exhausted {A}.

(** [task::Task<A>]: the call tree runs sequentially, so a task is a
    function of the shared state. An exception leaves the state as it is
    at the throw. *)
Definition Task (A : Type) : Type := State -> Outcome A * State.

Definition co_return {A} (a : A) : Task A := fun s => (Return a, s).

Definition throw {A} (e : Exception) : Task A := fun s => (Throw e, s).

Definition co_await {A B} (m : Task A) (k : A -> Task B) : Task B :=
  fun s =>
    match m s with
    | (Return a, s') => k a s'
    | (Throw e, s') => (Throw e, s')
    | (Exhausted, s') => (Exhausted, s')
    end.

Notation "'let*' p ':=' m 'in' k" := (co_await m (fun p => k))
  (at level 10, p pattern, m at level 200, k at level 200, only parsing).

Definition storage_read (key : StateKey) : Task (option Entry) :=
  fun s => (Return (Storage.read key (m_rollbackableStorage s)), s).

Definition storage_write (key : StateKey) (entry : Entry) : Task unit :=
  fun s => (Return tt,
            {| m_rollbackableStorage := Storage.write key entry (m_rollbackableStorage s);
               m_seq := m_seq s; constructed := constructed s |}).

Definition storage_existsOne (key : StateKey) : Task bool :=
  fun s => (Return (Storage.existsOne (m_rollbackableStorage s) key), s).

Definition storage_current : Task nat :=
  fun s => (Return (Storage.current (m_rollbackableStorage s)), s).

Definition storage_rollback (savepoint : nat) : Task unit :=
  fun s => (Return tt,
            {| m_rollbackableStorage := Storage.rollback savepoint (m_rollbackableStorage s);
               m_seq := m_seq s; constructed := constructed s |}).

(** [++m_seq] *)
Definition incr_seq : Task unit :=
  fun s => (Return tt,
            {| m_rollbackableStorage := m_rollbackableStorage s;
               m_seq := m_seq s + 1; constructed := constructed s |}).

(** ** The interpreter *)

(** The interpreter is opaque; the host sees it only through the calls it
    makes on the host interface while it executes, each answered before
    the interpreter goes on, and through the result it returns at the end.
    An execution is therefore a tree: a result, or a host call together
    with how the interpreter continues from the answer. The members of
    the host that neither read nor change anything shared ([exists],
    [blockNumber], [timestamp], [origin], [blockGasLimit], [suicide])
    have fixed answers and need no node of their own. *)
Inductive vm : Type :=
| vm_result (result : EVMCResult)
| vm_get (key : bytes) (k : bytes -> vm)
| vm_set (key val : bytes) (k : vm)
| vm_code (address : bytes) (k : option bytes -> vm)
| vm_codeSizeAt (address : bytes) (k : nat -> vm)
| vm_codeHashAt (address : bytes) (k : bytes -> vm)
| vm_blockHash (number : Z) (k : bytes -> vm)
| vm_log (topics : list bytes) (data : bytes) (k : vm)
| vm_externalCall (message : evmc_message) (k : EVMCResult -> vm).

(** What the host is given from outside this file. *)
Class Collaborators : Type := {
  (** [GlobalHashImpl::g_hashImpl->hash] *)
  hash : bytes -> bytes;
  (** [m_vmFactory.create(VMKind::evmone, codeHash, code, mode)] followed by
      [vmInstance.execute(interface, this, mode, &message, codeData, codeSize)],
      at the fixed revision [toRevision(vmSchedule())] *)
  vmInstance_execute : forall (codeHash code : bytes) (message : evmc_message)
                              (codeData : bytes), vm;
  (** [m_precompiledManager.getPrecompiled(address)] with
      [precompiled->call(message)]: the handler is handed the message
      and nothing else *)
  getPrecompiled : Z -> option (evmc_message -> EVMCResult);
  (** [h256(const byte*, size)] *)
  h256_of : bytes -> bytes;
  (** table and field names of ../Common.h and LedgerTypeDef.h *)
  USER_APPS_PREFIX : string;
  SYS_CODE_BINARY : string;
  SYS_CONTRACT_ABI : string;
  ACCOUNT_CODE_HASH : string
}.

(** ** The host *)

Record HostContext : Type := {
  m_blockHeader : BlockHeader;
  m_message : evmc_message;
  m_origin : bytes;
  m_contextID : Z;
  m_myContractTable : string;
  m_codeTable : string;
  m_abiTable : string;
  m_newContractAddress : bytes
}.

Definition MAX_PRECOMPILED_ADDRESS : Z := 100000.

Section Host.
Context `{Collaborators}.

Definition getTableNameID (address : bytes) : TableNameID :=
  USER_APPS_PREFIX +:+ address.

(** [fmt::format("{}_{}_{}", number, contextID, seq)] *)
Definition format_address (number contextID seq : Z) : string :=
  pretty number +:+ "_" +:+ pretty contextID +:+ "_" +:+ pretty seq.

(** [getMyContractTable]: the table of the host, and the value it leaves
    in [m_newContractAddress]. *)
Definition getMyContractTable (blockHeader : BlockHeader) (message : evmc_message)
    (contextID seq : Z) : Exception + (string * bytes) :=
  match kind message with
  | EVMC_CREATE =>
      let address := format_address (number blockHeader) contextID seq in
      let hash := hash address in
      let newContractAddress := String.substring 0 20 hash in
      inr (getTableNameID newContractAddress, newContractAddress)
  | EVMC_CREATE2 => inl (runtime_error "Unimplement")
  | _ =>
      let newContractAddress := zero_bytes 20 in
      inr (getTableNameID (recipient message), newContractAddress)
  end.

(** The constructor. *)
Definition HostContext_new (blockHeader : BlockHeader) (message : evmc_message)
    (origin : bytes) (contextID : Z) : Task HostContext :=
  fun s =>
    let s' := {| m_rollbackableStorage := m_rollbackableStorage s;
                 m_seq := m_seq s;
                 constructed := constructed s ++ [(message, m_seq s)] |} in
    match getMyContractTable blockHeader message contextID (m_seq s) with
    | inl e => (Throw e, s')
    | inr (myContractTable, newContractAddress) =>
        (Return {| m_blockHeader := blockHeader;
                   m_message := message;
                   m_origin := origin;
                   m_contextID := contextID;
                   m_myContractTable := myContractTable;
                   m_codeTable := SYS_CODE_BINARY;
                   m_abiTable := SYS_CONTRACT_ABI;
                   m_newContractAddress := newContractAddress |}, s')
    end.

(** [get]: the first 32 bytes of field 0 of the entry, or 32 zero bytes. *)
Definition get (h : HostContext) (key : bytes) : Task bytes :=
  let* it := storage_read (m_myContractTable h, key) in
  match it with
  | Some entry => co_return (String.substring 0 32 entry)
  | None => co_return (zero_bytes 32)
  end.

Definition set (h : HostContext) (key val : bytes) : Task unit :=
  let entry := val in
  storage_write (m_myContractTable h, key) entry.

Definition code (h : HostContext) (address : bytes) : Task (option Entry) :=
  let* codeHashIt := storage_read (getTableNameID address, ACCOUNT_CODE_HASH) in
  match codeHashIt with
  | Some codeHashEntry =>
      let* codeIt := storage_read (m_codeTable h, codeHashEntry) in
      match codeIt with
      | Some codeEntry => co_return (Some codeEntry)
      | None => co_return None
      end
  | None => co_return None
  end.

Definition setCode (h : HostContext) (codeHash : bytes) (code : bytes) : Task unit :=
  let codeHashEntry := codeHash in
  let* found := storage_existsOne (m_codeTable h, codeHashEntry) in
  let* _ := (if negb found
        then let codeEntry := code in
             storage_write (m_codeTable h, codeHashEntry) codeEntry
        else co_return tt) in
  storage_write (m_myContractTable h, ACCOUNT_CODE_HASH) codeHashEntry.

(** [setCode(bytesConstRef code)] *)
Definition setCode1 (h : HostContext) (code : bytes) : Task unit :=
  setCode h (hash code) code.

(** The write in the last step is called with the table as an additional
    leading argument; it is taken as the write of the one key and entry
    it passes. *)
Definition setCodeAndABI (h : HostContext) (code : bytes) (abi : string) : Task unit :=
  let codeHash := hash code in
  let codeHashView := codeHash in
  let* _ := setCode h codeHash code in
  let abiEntry := abi in
  let* abiIt := storage_read (m_abiTable h, codeHashView) in
  match abiIt with
  | None => storage_write (m_abiTable h, codeHashView) abiEntry
  | Some _ => co_return tt
  end.

Definition codeSizeAt (h : HostContext) (address : bytes) : Task nat :=
  let* codeEntry := code h address in
  match codeEntry with
  | Some entry => co_return (String.length entry)
  | None => co_return O
  end.

Definition codeHashAt (h : HostContext) (address : bytes) : Task bytes :=
  let* it := storage_read (getTableNameID address, ACCOUNT_CODE_HASH) in
  match it with
  | Some codeHashEntry => co_return (h256_of codeHashEntry)
  | None => co_return (zero_bytes 32)
  end.

Definition blockHash (h : HostContext) (n : Z) : Task bytes :=
  throw (runtime_error "Unsupported method!").

(** [log]: [m_logs.emplace_back(bytes{}, topics, data)] *)
Definition log (m_logs : list LogEntry) (topics : list bytes) (data : bytes)
    : list LogEntry :=
  m_logs ++ [ {| log_address := EmptyString; log_topics := topics; log_data := data |} ].

(** First step of [externalCall]: the handler registered for the code
    address, looked up only when the address, read as a number, lies
    strictly between 0 and [MAX_PRECOMPILED_ADDRESS]. *)
Definition lookupPrecompiled (message : evmc_message)
    : option (evmc_message -> EVMCResult) :=
  let address := fromBigEndian (code_address message) in
  if (0 <? address) && (address <? MAX_PRECOMPILED_ADDRESS)
  then getPrecompiled address
  else None.

(** The message a nested host is built for ([*messagePtr]). *)
Definition messageWithSender (h : HostContext) (message : evmc_message) : evmc_message :=
  if bool_decide (kind message = EVMC_CREATE) && String.eqb (sender message) EMPTY_ADDRESS
  then {| kind := kind message; depth := depth message; gas := gas message;
          recipient := recipient message;
          sender := m_newContractAddress h;
          input_data := input_data message; value := value message;
          code_address := code_address message |}
  else message.

Section Nested.
(** [execute] of a nested host: returns the result and the logs the
    nested host has accumulated ([hostcontext.logs()]). *)
Variable execute_nested : HostContext -> Task (EVMCResult * list LogEntry).

(** [externalCall] (the trace output at its head left out). *)
Definition externalCall (h : HostContext) (message : evmc_message)
    (m_logs : list LogEntry) : Task (EVMCResult * list LogEntry) :=
  match lookupPrecompiled message with
  | Some precompiled => co_return (precompiled message, m_logs)
  | None =>
      let* _ := incr_seq in
      let* hostcontext := HostContext_new (m_blockHeader h) (messageWithSender h message)
                            (m_origin h) (m_contextID h) in
      let* (result, logs) := execute_nested hostcontext in
      if (status_code result =? EVMC_SUCCESS) && negb (bool_decide (logs = []))
      then co_return (result, m_logs ++ logs)
      else co_return (result, m_logs)
  end.

(** The host serving the interpreter: [vmInstance.execute(interface,
    this, ...)], with [m_logs] the log list of this host. *)
Fixpoint run (h : HostContext) (p : vm) (m_logs : list LogEntry)
    : Task (EVMCResult * list LogEntry) :=
  match p with
  | vm_result result => co_return (result, m_logs)
  | vm_get key k => let* v := get h key in run h (k v) m_logs
  | vm_set key val k => let* _ := set h key val in run h k m_logs
  | vm_code address k => let* c := code h address in run h (k c) m_logs
  | vm_codeSizeAt address k => let* n := codeSizeAt h address in run h (k n) m_logs
  | vm_codeHashAt address k => let* v := codeHashAt h address in run h (k v) m_logs
  | vm_blockHash n k => let* v := blockHash h n in run h (k v) m_logs
  | vm_log topics data k => run h k (log m_logs topics data)
  | vm_externalCall message k =>
      let* (result, m_logs') := externalCall h message m_logs in
      run h (k result) m_logs'
  end.

Definition with_create_address (result : EVMCResult) (address : bytes) : EVMCResult :=
  {| status_code := status_code result; gas_left := gas_left result;
     output_data := output_data result; create_address := address |}.

Definition create (h : HostContext) (m_logs : list LogEntry)
    : Task (EVMCResult * list LogEntry) :=
  let createCode := input_data (m_message h) in
  let createCodeHash := hash createCode in
  let vmInstance := vmInstance_execute createCodeHash createCode in
  let* savepoint := storage_current in
  let* (result, m_logs') := run h (vmInstance (m_message h) (input_data (m_message h))) m_logs in
  if negb (status_code result =? 0)
  then let* _ := storage_rollback savepoint in co_return (result, m_logs')
  else let* _ := setCode1 h (output_data result) in
       co_return (with_create_address result (m_newContractAddress h), m_logs').

Definition call (h : HostContext) (m_logs : list LogEntry)
    : Task (EVMCResult * list LogEntry) :=
  let* codeEntry := code h (code_address (m_message h)) in
  match codeEntry with
  | None => throw NotFoundCodeError
  | Some entry =>
      if (String.length entry =? 0)%nat then throw NotFoundCodeError
      else
        let code := entry in
        let* codeHash := codeHashAt h (code_address (m_message h)) in
        let vmInstance := vmInstance_execute codeHash code in
        let* savepoint := storage_current in
        let* (result, m_logs') := run h (vmInstance (m_message h) code) m_logs in
        if negb (status_code result =? 0)
        then let* _ := storage_rollback savepoint in co_return (result, m_logs')
        else co_return (result, m_logs')
  end.

Definition execute_with (h : HostContext) : Task (EVMCResult * list LogEntry) :=
  if bool_decide (kind (m_message h) = EVMC_CREATE) || bool_decide (kind (m_message h) = EVMC_CREATE2)
  then create h []
  else call h [].

End Nested.

(** [execute]: a host whose nested hosts may nest [fuel] levels deep. *)
Fixpoint execute (fuel : nat) (h : HostContext) : Task (EVMCResult * list LogEntry) :=
  match fuel with
  | O => fun s => (Exhausted, s)
  | S fuel' => execute_with (execute fuel') h
  end.

(** What the interpreter does when [create] runs it, and when [call]
    runs it on the code [code] found under the hash entry
    [codeHashEntry]. *)
Definition create_vm (h : HostContext) : vm :=
  vmInstance_execute (hash (input_data (m_message h))) (input_data (m_message h))
    (m_message h) (input_data (m_message h)).

Definition call_vm (h : HostContext) (codeHashEntry code : bytes) : vm :=
  vmInstance_execute (h256_of codeHashEntry) code (m_message h) code.

(** The address whose table a host works on: the address
    [getMyContractTable] hands to [getTableNameID]. *)
Definition myContractAddress (h : HostContext) : bytes :=
  match kind (m_message h) with
  | EVMC_CREATE => m_newContractAddress h
  | _ => recipient (m_message h)
  end.

(** The state with another storage. *)
Definition with_storage (s : State) (st : Storage.t) : State :=
  {| m_rollbackableStorage := st; m_seq := m_seq s; constructed := constructed s |}.

(** The storage [setCode] leaves: the code under its hash unless an
    entry is there already, then the hash under the code hash field of
    the contract's table. *)
Definition stored_code (h : HostContext) (codeHash code : bytes) (st : Storage.t)
    : Storage.t :=
  Storage.write (m_myContractTable h, ACCOUNT_CODE_HASH) codeHash
    (if Storage.existsOne st (m_codeTable h, codeHash) then st
     else Storage.write (m_codeTable h, codeHash) code st).

(** The storage [setCodeAndABI] leaves on top of that. *)
Definition stored_abi (h : HostContext) (codeHash abi : bytes) (st1 : Storage.t)
    : Storage.t :=
  if Storage.existsOne st1 (m_abiTable h, codeHash) then st1
  else Storage.write (m_abiTable h, codeHash) abi st1.

(** The keys of the shared code table that hold an entry. *)
Definition codeTableKeys (st : Storage.t) : gset (string * string) :=
  filter (fun key => key.1 = SYS_CODE_BINARY) (dom (Storage.contents st)).

End Host.

(** ** What a task may do to the shared state *)

(** [grows s s']: the write history of [s'] extends that of [s], the
    constructor history extends too, and the counter has advanced by one
    for every host constructed in between. *)
Record grows (s s' : State) : Prop := {
  grows_storage :
    exists ext, m_rollbackableStorage s' = ext ++ m_rollbackableStorage s;
  grows_hosts :
    exists built, constructed s' = constructed s ++ built /\
                  m_seq s' = m_seq s + Z.of_nat (length built)
}.

(** A task that only lets the state grow. *)
Definition growing {A} (m : Task A) : Prop := forall s, grows s (m s).2.

(** [finishes_as m1 m2]: whenever [m1] comes to an end (a value or an
    exception) rather than running out of depth, [m2] ends the same way
    in the same state. *)
Definition finishes_as {A} (m1 m2 : Task A) : Prop :=
  forall s o s', m1 s = (o, s') -> o <> Exhausted -> m2 s = (o, s').

(** [numbered s s']: the hosts constructed between [s] and [s'] were
    handed the counter values [m_seq s + 1], [m_seq s + 2], ... in the
    order of their construction, and the counter of [s'] is the last of
    them. *)
Record numbered (s s' : State) : Prop := {
  numbered_built :
    exists built : list (evmc_message * Z),
      constructed s' = constructed s ++ built /\
      m_seq s' = m_seq s + Z.of_nat (length built) /\
      forall (i : nat) (m : evmc_message) (q : Z),
        built !! i = Some (m, q) -> q = m_seq s + 1 + Z.of_nat i
}.

(** A task that keeps a relation between the state it starts from and the
    state it ends in. *)
Definition keeps {A} (R : State -> State -> Prop) (m : Task A) : Prop :=
  forall s, R s (m s).2.

Section CallTail.
Context `{Collaborators}.


End CallTail.

(** ** A concrete world, used to run the definitions *)

Module Demo.

Definition pad32 (b : bytes) : bytes := String.substring 0 32 (b +:+ zero_bytes 32).

Definition ok (output : bytes) : EVMCResult :=
  {| status_code := 0; gas_left := 0; output_data := output;
     create_address := EMPTY_ADDRESS |}.

(** status 2 is [EVMC_REVERT] *)
Definition reverted : EVMCResult :=
  {| status_code := 2; gas_left := 0; output_data := "reason";
     create_address := EMPTY_ADDRESS |}.

Definition contract (c : ascii) : bytes :=
  String.string_of_list_ascii (replicate 20 c).

(** the address 1 *)
Definition one : bytes := zero_bytes 19 +:+ String Ascii.one EmptyString.

Definition message (k : evmc_call_kind) (from to input : bytes) : evmc_message :=
  {| kind := k; depth := 0; gas := 1000000; recipient := to; sender := from;
     input_data := input; value := zero_bytes 32; code_address := to |}.

(** A toy interpreter, driven by the code it is given. *)
Definition program (codeData : bytes) : vm :=
  if String.eqb codeData "revert" then
    vm_set "slot" "value" (vm_log ["topic"] "data" (vm_result reverted))
  else if String.eqb codeData "deploy" then
    vm_set "slot" "value" (vm_log ["topic"] "data" (vm_result (ok "runtime")))
  else if String.eqb codeData "spawn" then
    vm_externalCall (message EVMC_CREATE EMPTY_ADDRESS EMPTY_ADDRESS "deploy")
      (fun r => vm_log ["spawned"] (create_address r) (vm_result (ok "parent")))
  else if String.eqb codeData "spawn-revert" then
    vm_set "mine" "kept"
      (vm_externalCall (message EVMC_CREATE EMPTY_ADDRESS EMPTY_ADDRESS "revert")
         (fun r => vm_result (ok "parent")))
  else vm_result (ok "").

Definition handler (m : evmc_message) : EVMCResult := ok "precompiled".

(** a registry that answers for every address below 10 *)
Definition collaborators : Collaborators :=
  {| hash := pad32;
     vmInstance_execute := fun _ _ _ codeData => program codeData;
     getPrecompiled := fun a => if a <? 10 then Some handler else None;
     h256_of := pad32;
     USER_APPS_PREFIX := "/apps/";
     SYS_CODE_BINARY := "s_code_binary";
     SYS_CONTRACT_ABI := "s_contract_abi";
     ACCOUNT_CODE_HASH := "codeHash" |}.

Definition header : BlockHeader := {| number := 10; version := 0; timestamp := 0 |}.

Definition origin : bytes := contract "o".

Definition state (st : Storage.t) (seq : Z) : State :=
  {| m_rollbackableStorage := st; m_seq := seq; constructed := [] |}.

(** a storage in which the contract at [a] has the code [c] *)
Definition deployed (a c : bytes) : Storage.t :=
  [ (("/apps/" +:+ a, "codeHash"), pad32 c); (("s_code_binary", pad32 c), c) ].

Definition blank : HostContext :=
  {| m_blockHeader := header;
     m_message := message EVMC_CALL EmptyString EmptyString EmptyString;
     m_origin := EmptyString; m_contextID := 0; m_myContractTable := EmptyString;
     m_codeTable := EmptyString; m_abiTable := EmptyString;
     m_newContractAddress := EmptyString |}.

(** the host the constructor builds for [m] over [s] ([blank] if it throws) *)
Definition host (m : evmc_message) (s : State) : HostContext :=
  match @HostContext_new collaborators header m origin 1 s with
  | (Return h, _) => h
  | _ => blank
  end.

End Demo.

(** ** A second concrete world, with other programs *)

Module Demo2.
Import Demo.

(** A toy interpreter: one program writes and then asks for a block hash,
    one dispatches a CREATE2, one dispatches two creations in a row, one
    reads back what it wrote. *)
Definition program (codeData : bytes) : vm :=
  if String.eqb codeData "write-blockhash" then
    vm_set "slot" "value" (vm_blockHash 3 (fun _ => vm_result (ok "unreachable")))
  else if String.eqb codeData "spawn-create2" then
    vm_set "mine" "kept"
      (vm_externalCall (message EVMC_CREATE2 EMPTY_ADDRESS EMPTY_ADDRESS "deploy")
         (fun r => vm_result (ok "unreachable")))
  else if String.eqb codeData "spawn-twice" then
    vm_externalCall (message EVMC_CREATE EMPTY_ADDRESS EMPTY_ADDRESS "revert")
      (fun _ =>
         vm_externalCall (message EVMC_CREATE EMPTY_ADDRESS EMPTY_ADDRESS "deploy")
           (fun r => vm_result (ok "parent")))
  else if String.eqb codeData "write-read" then
    vm_set "slot" (zero_bytes 31 +:+ "7")
      (vm_get "slot" (fun v => vm_result (ok v)))
  else Demo.program codeData.

Definition collaborators : Collaborators :=
  {| hash := pad32;
     vmInstance_execute := fun _ _ _ codeData => program codeData;
     getPrecompiled := fun a => if a <? 10 then Some handler else None;
     h256_of := pad32;
     USER_APPS_PREFIX := "/apps/";
     SYS_CODE_BINARY := "s_code_binary";
     SYS_CONTRACT_ABI := "s_contract_abi";
     ACCOUNT_CODE_HASH := "codeHash" |}.

(** the host the constructor builds for [m] over [s] ([blank] if it throws) *)
Definition host (m : evmc_message) (s : State) : HostContext :=
  match @HostContext_new collaborators header m origin 1 s with
  | (Return h, _) => h
  | _ => blank
  end.

End Demo2.

(* ===================================================================== *)
(** * Facts about the key codec                                           *)
(* ===================================================================== *)

Module StateKeyResolverFacts.
Import StateKeyResolver.

Lemma app_empty_l (s : string) : EmptyString +:+ s = s.
Proof. reflexivity. Qed.

Lemma substring_0_app (t k : string) :
  String.substring 0 (String.length t) (t +:+ k) = t.
Proof.
  induction t as [|a t IH]; simpl.
  - destruct k; reflexivity.
  - now rewrite IH.
Qed.

Lemma substring_all (k : string) (n : nat) :
  (String.length k <= n)%nat -> String.substring 0 n k = k.
Proof.
  revert n; induction k as [|a k IH]; intros n Hn; simpl in *.
  - destruct n; reflexivity.
  - destruct n as [|n]; [lia|]. rewrite IH by lia. reflexivity.
Qed.

Lemma substring_skip (c : ascii) (t k : string) (n : nat) :
  String.substring (String.length t + 1) n (t +:+ String c k) = String.substring 0 n k.
Proof. induction t as [|a t IH]; simpl; [reflexivity | exact IH]. Qed.

Lemma length_app (t k : string) :
  String.length (t +:+ k) = (String.length t + String.length k)%nat.
Proof. induction t as [|a t IH]; simpl; [reflexivity | now rewrite IH]. Qed.

(** [find] returns the first occurrence: everything before it differs
    from the character, and the buffer splits there. *)
Lemma find_Some_split (c : ascii) (s : string) (pos : nat) :
  find c s = Some pos ->
  exists t k, s = t +:+ String c k /\ String.length t = pos /\ find c t = None.
Proof.
  revert pos; induction s as [|a s IH]; intros pos H; simpl in H; [discriminate|].
  destruct (Ascii.eqb a c) eqn:E.
  - apply Ascii.eqb_eq in E; subst a. injection H as <-.
    exists EmptyString, s. repeat split.
  - destruct (find c s) as [p|] eqn:F; [|discriminate].
    injection H as <-. destruct (IH p eq_refl) as (t & k & -> & Hl & Hn).
    exists (String a t), k. simpl. rewrite E, Hn, Hl. repeat split.
Qed.

Lemma find_app_None (c : ascii) (t k : string) :
  find c t = None -> find c (t +:+ String c k) = Some (String.length t).
Proof.
  induction t as [|a t IH]; simpl; intros H.
  - now rewrite Ascii.eqb_refl.
  - destruct (Ascii.eqb a c); [discriminate|].
    destruct (find c t); [discriminate|]. now rewrite IH.
Qed.

Lemma find_None_get (c : ascii) (s : string) :
  find c s = None <-> (forall i, String.get i s <> Some c).
Proof.
  induction s as [|a s IH]; simpl.
  - split; [intros _ i; destruct i; discriminate | reflexivity].
  - destruct (Ascii.eqb a c) eqn:E.
    + apply Ascii.eqb_eq in E; subst a.
      split; [discriminate | intros H; exfalso; now apply (H O)].
    + apply Ascii.eqb_neq in E. destruct (find c s) as [p|].
      * split; [discriminate|]. intros H. exfalso.
        assert (Hs : forall i, String.get i s <> Some c) by (intros i; apply (H (S i))).
        apply IH in Hs. discriminate.
      * split; [|reflexivity]. intros _ [|i]; simpl.
        -- congruence.
        -- now apply IH.
Qed.

Lemma no_split_find (s : string) : ~ has_split s <-> find TABLE_KEY_SPLIT s = None.
Proof.
  rewrite find_None_get. unfold has_split. split.
  - intros H i Hi. apply H. now exists i.
  - intros H [i Hi]. now apply (H i).
Qed.

(** What [decode] computes on a buffer of the shape [t : k] whose table
    part has no separator. *)
Lemma decode_split (t k : string) :
  find TABLE_KEY_SPLIT t = None ->
  decode (t +:+ String TABLE_KEY_SPLIT k) =
    if empty t || empty k then inl InvalidStateKey else inr (t, k).
Proof.
  intros Hn. unfold decode. rewrite (find_app_None _ _ _ Hn).
  unfold substr. rewrite length_app. simpl String.length.
  replace (_ <? _)%nat with false by (symmetry; apply Nat.ltb_ge; lia).
  replace (_ <? _)%nat with false by (symmetry; apply Nat.ltb_ge; lia).
  rewrite substring_0_app, substring_skip, substring_all by lia.
  reflexivity.
Qed.

Lemma app_single (c : ascii) (t k : string) :
  (t +:+ String c EmptyString) +:+ k = t +:+ String c k.
Proof.
  induction t as [|a t IH]; [reflexivity|].
  change (String a ((t +:+ String c EmptyString) +:+ k) = String a (t +:+ String c k)).
  now rewrite IH.
Qed.

Lemma encode_eq (t k : string) : encode (t, k) = t +:+ String TABLE_KEY_SPLIT k.
Proof. unfold encode. cbv zeta. rewrite app_empty_l. apply app_single. Qed.

Lemma empty_false (s : string) : s <> EmptyString -> empty s = false.
Proof. destruct s; [congruence | reflexivity]. Qed.

End StateKeyResolverFacts.

(* ===================================================================== *)
(** * Facts about the storage                                             *)
(* ===================================================================== *)

Module StorageFacts.

Lemma rollback_current (ext st : Storage.t) :
  Storage.rollback (Storage.current st) (ext ++ st) = st.
Proof.
  unfold Storage.rollback, Storage.current.
  rewrite length_app.
  replace (length ext + length st - length st)%nat with (length ext) by lia.
  apply drop_app_length.
Qed.

Lemma read_write_eq (key : string * string) (entry : string) (st : Storage.t) :
  Storage.read key (Storage.write key entry st) = Some entry.
Proof. unfold Storage.write; simpl. now rewrite decide_True. Qed.

Lemma read_write_ne (key key' : string * string) (entry : string) (st : Storage.t) :
  key <> key' -> Storage.read key' (Storage.write key entry st) = Storage.read key' st.
Proof. intros Hne. unfold Storage.write; simpl. now rewrite decide_False. Qed.

Lemma contents_read (st : Storage.t) (key : string * string) :
  Storage.contents st !! key = Storage.read key st.
Proof.
  induction st as [|[k e] st IH]; simpl.
  - apply lookup_empty.
  - destruct (decide (k = key)) as [->|Hne].
    + apply lookup_insert_eq.
    + rewrite lookup_insert_ne by exact Hne. exact IH.
Qed.

End StorageFacts.

(* ===================================================================== *)
(** * Facts about tasks and the shared state                              *)
(* ===================================================================== *)

Section TaskFacts.

Lemma grows_refl (s : State) : grows s s.
Proof.
  split; [exists []; reflexivity|].
  exists []. rewrite app_nil_r; simpl. split; [reflexivity | lia].
Qed.

Lemma grows_trans (s1 s2 s3 : State) : grows s1 s2 -> grows s2 s3 -> grows s1 s3.
Proof.
  intros [[e1 He1] [b1 [Hb1 Hq1]]] [[e2 He2] [b2 [Hb2 Hq2]]]. split.
  - exists (e2 ++ e1). rewrite He2, He1. apply app_assoc.
  - exists (b1 ++ b2). rewrite Hb2, Hb1, Hq2, Hq1, length_app, <- app_assoc.
    split; [reflexivity | lia].
Qed.

Lemma growing_co_return {A} (a : A) : growing (co_return a).
Proof. intros s; apply grows_refl. Qed.

Lemma growing_throw {A} (e : Exception) : growing (@throw A e).
Proof. intros s; apply grows_refl. Qed.

Lemma growing_co_await {A B} (m : Task A) (k : A -> Task B) :
  growing m -> (forall a, growing (k a)) -> growing (co_await m k).
Proof.
  intros Hm Hk s. unfold co_await. specialize (Hm s).
  destruct (m s) as [[a|e|] s']; simpl in *; try exact Hm.
  eapply grows_trans; [exact Hm | apply Hk].
Qed.

Lemma growing_storage_read (key : string * string) : growing (storage_read key).
Proof. intros s; apply grows_refl. Qed.

Lemma growing_storage_existsOne (key : string * string) : growing (storage_existsOne key).
Proof. intros s; apply grows_refl. Qed.

Lemma growing_storage_current : growing storage_current.
Proof. intros s; apply grows_refl. Qed.

Lemma growing_storage_write (key : string * string) (entry : string) :
  growing (storage_write key entry).
Proof.
  intros s; split; simpl.
  - exists [(key, entry)]. reflexivity.
  - exists []. rewrite app_nil_r; simpl. split; [reflexivity | lia].
Qed.

(** Rolling back to a savepoint taken in [s0], after the state has only
    grown since, restores the storage of [s0]. *)
Lemma rollback_restores (s0 s1 : State) :
  grows s0 s1 ->
  m_rollbackableStorage
    (storage_rollback (Storage.current (m_rollbackableStorage s0)) s1).2
  = m_rollbackableStorage s0.
Proof.
  intros [[ext Hext] _]. simpl. rewrite Hext.
  apply StorageFacts.rollback_current.
Qed.

Lemma rollback_grows (s0 s1 : State) :
  grows s0 s1 ->
  grows s0 (storage_rollback (Storage.current (m_rollbackableStorage s0)) s1).2.
Proof.
  intros Hg. split.
  - exists []. rewrite (rollback_restores _ _ Hg). reflexivity.
  - destruct Hg as [_ Hh]. exact Hh.
Qed.

End TaskFacts.

Create HintDb growing.
#[local] Hint Resolve growing_co_return growing_throw growing_storage_read
  growing_storage_existsOne growing_storage_current growing_storage_write
  : growing.

(* ===================================================================== *)
(** * Facts about the host                                                *)
(* ===================================================================== *)

Section HostFacts.
Context `{Collaborators}.

(** ** Read-side accessors leave the state alone and always return *)

Lemma get_returns (h : HostContext) (key : bytes) (s : State) :
  exists v, get h key s = (Return v, s).
Proof.
  unfold get, co_await, storage_read.
  destruct (Storage.read _ _); eexists; reflexivity.
Qed.

Lemma code_returns (h : HostContext) (address : bytes) (s : State) :
  exists o, code h address s = (Return o, s).
Proof.
  unfold code, co_await, storage_read.
  destruct (Storage.read (getTableNameID address, ACCOUNT_CODE_HASH) _);
    [destruct (Storage.read _ _)|]; eexists; reflexivity.
Qed.

Lemma codeSizeAt_returns (h : HostContext) (address : bytes) (s : State) :
  exists n, codeSizeAt h address s = (Return n, s).
Proof.
  unfold codeSizeAt. unfold co_await at 1.
  destruct (code_returns h address s) as [o ->].
  destruct o; eexists; reflexivity.
Qed.

Lemma codeHashAt_returns (h : HostContext) (address : bytes) (s : State) :
  exists v, codeHashAt h address s = (Return v, s).
Proof.
  unfold codeHashAt, co_await, storage_read.
  destruct (Storage.read _ _); eexists; reflexivity.
Qed.

Lemma growing_get (h : HostContext) (key : bytes) : growing (get h key).
Proof. intros s. destruct (get_returns h key s) as [v ->]. apply grows_refl. Qed.

Lemma growing_code (h : HostContext) (a : bytes) : growing (code h a).
Proof. intros s. destruct (code_returns h a s) as [v ->]. apply grows_refl. Qed.

Lemma growing_codeSizeAt (h : HostContext) (a : bytes) : growing (codeSizeAt h a).
Proof. intros s. destruct (codeSizeAt_returns h a s) as [v ->]. apply grows_refl. Qed.

Lemma growing_codeHashAt (h : HostContext) (a : bytes) : growing (codeHashAt h a).
Proof. intros s. destruct (codeHashAt_returns h a s) as [v ->]. apply grows_refl. Qed.

Lemma growing_set (h : HostContext) (key val : bytes) : growing (set h key val).
Proof. apply growing_storage_write. Qed.

Lemma growing_setCode (h : HostContext) (codeHash code : bytes) :
  growing (setCode h codeHash code).
Proof.
  unfold setCode. apply growing_co_await; [auto with growing|].
  intros found. apply growing_co_await; [|auto with growing].
  destruct found; simpl; auto with growing.
Qed.

(** ** Nested dispatch *)

(** The constructor touches neither the storage nor the counter, and
    notes the message and the counter in the history. *)
Lemma HostContext_new_state (bh : BlockHeader) (m : evmc_message) (o : bytes)
    (c : Z) (s : State) :
  let s' := (HostContext_new bh m o c s).2 in
  m_rollbackableStorage s' = m_rollbackableStorage s /\
  m_seq s' = m_seq s /\
  constructed s' = constructed s ++ [(m, m_seq s)].
Proof.
  unfold HostContext_new.
  destruct (getMyContractTable bh m c (m_seq s)) as [e|[t a]]; simpl; auto.
Qed.

(** A nested dispatch that is not answered by a precompiled handler:
    the counter is incremented, then the nested host is constructed for
    [messageWithSender h message]; whatever follows keeps one increment
    per constructed host. *)
Lemma externalCall_dispatch (exec : HostContext -> Task (EVMCResult * list LogEntry))
    (h : HostContext) (message : evmc_message) (m_logs : list LogEntry)
    (s s' : State) (o : Outcome (EVMCResult * list LogEntry)) :
  (forall hc, growing (exec hc)) ->
  lookupPrecompiled message = None ->
  externalCall exec h message m_logs s = (o, s') ->
  (exists ext, m_rollbackableStorage s' = ext ++ m_rollbackableStorage s) /\
  (exists built,
      constructed s' = constructed s ++ (messageWithSender h message, m_seq s + 1) :: built /\
      m_seq s' = m_seq s + 1 + Z.of_nat (length built)).
Proof.
  intros Hexec Hpre. unfold externalCall. rewrite Hpre.
  unfold co_await at 1. unfold incr_seq at 1.
  set (s1 := {| m_rollbackableStorage := m_rollbackableStorage s;
                m_seq := m_seq s + 1; constructed := constructed s |}).
  unfold co_await at 1.
  pose proof (HostContext_new_state (m_blockHeader h) (messageWithSender h message)
                (m_origin h) (m_contextID h) s1) as Hnew.
  destruct (HostContext_new _ _ _ _ s1) as [o2 s2]. simpl in Hnew.
  destruct Hnew as (Hst & Hsq & Hco).
  assert (Hbase : (exists ext, m_rollbackableStorage s2 = ext ++ m_rollbackableStorage s) /\
                  (exists built, constructed s2 = constructed s ++
                      (messageWithSender h message, m_seq s + 1) :: built /\
                      m_seq s2 = m_seq s + 1 + Z.of_nat (length built))).
  { split; [exists []; exact Hst|]. exists []. rewrite Hco, Hsq. simpl.
    split; [reflexivity | lia]. }
  destruct o2 as [hc|e|]; try (intros [= <- <-]; exact Hbase).
  unfold co_await. specialize (Hexec hc s2).
  destruct (exec hc s2) as [o3 s3]. simpl in Hexec.
  assert (Hfin : (exists ext, m_rollbackableStorage s3 = ext ++ m_rollbackableStorage s) /\
                 (exists built, constructed s3 = constructed s ++
                      (messageWithSender h message, m_seq s + 1) :: built /\
                      m_seq s3 = m_seq s + 1 + Z.of_nat (length built))).
  { destruct Hexec as [[e3 He3] [b3 [Hb3 Hq3]]].
    destruct Hbase as [[e2 He2] [b2 [Hb2 Hq2]]]. split.
    - exists (e3 ++ e2). rewrite He3, He2. apply app_assoc.
    - exists (b2 ++ b3). rewrite Hb3, Hb2, Hq3, Hq2, length_app, <- app_assoc.
      split; [reflexivity | lia]. }
  destruct o3 as [[r l]|e|]; try (intros [= <- <-]; exact Hfin).
  destruct (_ && _); intros [= <- <-]; exact Hfin.
Qed.

Lemma growing_externalCall (exec : HostContext -> Task (EVMCResult * list LogEntry))
    (h : HostContext) (message : evmc_message) (m_logs : list LogEntry) :
  (forall hc, growing (exec hc)) -> growing (externalCall exec h message m_logs).
Proof.
  intros Hexec s.
  destruct (lookupPrecompiled message) as [p|] eqn:Hpre.
  - unfold externalCall. rewrite Hpre. apply grows_refl.
  - destruct (externalCall exec h message m_logs s) as [o s'] eqn:E.
    destruct (externalCall_dispatch exec h message m_logs s s' o Hexec Hpre E)
      as [Hst [built [Hb Hq]]]. simpl.
    split; [exact Hst|]. exists ((messageWithSender h message, m_seq s + 1) :: built).
    split; [exact Hb|]. rewrite Hq. simpl length. lia.
Qed.

Lemma growing_run (exec : HostContext -> Task (EVMCResult * list LogEntry))
    (h : HostContext) (p : vm) :
  (forall hc, growing (exec hc)) -> forall m_logs, growing (run exec h p m_logs).
Proof.
  intros Hexec.
  induction p as [r|key k IH|key val k IH|a k IH|a k IH|a k IH|n k IH|t d k IH|m k IH];
    intros m_logs; simpl.
  - apply growing_co_return.
  - apply growing_co_await; [apply growing_get | intros v; apply IH].
  - apply growing_co_await; [apply growing_set | intros _; apply IH].
  - apply growing_co_await; [apply growing_code | intros v; apply IH].
  - apply growing_co_await; [apply growing_codeSizeAt | intros v; apply IH].
  - apply growing_co_await; [apply growing_codeHashAt | intros v; apply IH].
  - apply growing_co_await; [apply growing_throw | intros v; apply IH].
  - apply IH.
  - apply growing_co_await; [apply growing_externalCall, Hexec | intros [r l]; apply IH].
Qed.

(** ** [create], [call] and [execute] *)

Lemma create_unfold (exec : HostContext -> Task (EVMCResult * list LogEntry))
    (h : HostContext) (m_logs : list LogEntry) (s : State) :
  create exec h m_logs s =
    match run exec h (create_vm h) m_logs s with
    | (Return (result, m_logs'), s1) =>
        if negb (status_code result =? 0)
        then (Return (result, m_logs'),
              (storage_rollback (Storage.current (m_rollbackableStorage s)) s1).2)
        else match setCode1 h (output_data result) s1 with
             | (Return _, s2) =>
                 (Return (with_create_address result (m_newContractAddress h), m_logs'), s2)
             | (Throw e, s2) => (Throw e, s2)
             | (Exhausted, s2) => (Exhausted, s2)
             end
    | (Throw e, s1) => (Throw e, s1)
    | (Exhausted, s1) => (Exhausted, s1)
    end.
Proof.
  unfold create, create_vm. unfold co_await at 1, storage_current at 1.
  unfold co_await at 1.
  destruct (run _ _ _ _ _) as [[[r l]|e|] s1]; try reflexivity.
  destruct (negb _); reflexivity.
Qed.

(** What [call] does once the code lookup has found a non-empty entry. *)
Lemma call_unfold (exec : HostContext -> Task (EVMCResult * list LogEntry))
    (h : HostContext) (m_logs : list LogEntry) (s : State) (codeHashEntry codeEntry : bytes) :
  Storage.read (getTableNameID (code_address (m_message h)), ACCOUNT_CODE_HASH)
    (m_rollbackableStorage s) = Some codeHashEntry ->
  Storage.read (m_codeTable h, codeHashEntry) (m_rollbackableStorage s) = Some codeEntry ->
  codeEntry <> EmptyString ->
  call exec h m_logs s =
    match run exec h (call_vm h codeHashEntry codeEntry) m_logs s with
    | (Return (result, m_logs'), s1) =>
        if negb (status_code result =? 0)
        then (Return (result, m_logs'),
              (storage_rollback (Storage.current (m_rollbackableStorage s)) s1).2)
        else (Return (result, m_logs'), s1)
    | (Throw e, s1) => (Throw e, s1)
    | (Exhausted, s1) => (Exhausted, s1)
    end.
Proof.
  intros Hh Hc Hne.
  unfold call, call_vm, code, codeHashAt, co_await, storage_read, storage_current,
    co_return.
  rewrite Hh. cbv beta iota. rewrite Hc. cbv beta iota.
  destruct codeEntry as [|c0 codeEntry]; [congruence|].
  change (String.length (String c0 codeEntry) =? 0)%nat with false.
  cbv beta iota. rewrite Hh. cbv beta iota.
  destruct (run _ _ _ _ _) as [[[r l]|e|] s1]; try reflexivity.
  destruct (negb _); reflexivity.
Qed.

Lemma growing_create (exec : HostContext -> Task (EVMCResult * list LogEntry))
    (h : HostContext) (m_logs : list LogEntry) :
  (forall hc, growing (exec hc)) -> growing (create exec h m_logs).
Proof.
  intros Hexec s. rewrite create_unfold.
  pose proof (growing_run exec h (create_vm h) Hexec m_logs s) as Hrun.
  destruct (run _ _ _ _ _) as [[[r l]|e|] s1]; simpl in *; try exact Hrun.
  destruct (negb _).
  - simpl. apply (rollback_grows _ _ Hrun).
  - pose proof (growing_setCode h (hash (output_data r)) (output_data r) s1) as Hset.
    unfold setCode1. destruct (setCode _ _ _ _) as [[u|e|] s2]; simpl in *;
      exact (grows_trans _ _ _ Hrun Hset).
Qed.

Lemma growing_call (exec : HostContext -> Task (EVMCResult * list LogEntry))
    (h : HostContext) (m_logs : list LogEntry) :
  (forall hc, growing (exec hc)) -> growing (call exec h m_logs).
Proof.
  intros Hexec s.
  destruct (Storage.read (getTableNameID (code_address (m_message h)), ACCOUNT_CODE_HASH)
              (m_rollbackableStorage s)) as [ch|] eqn:Hh.
  2:{ unfold call, co_await, code, co_await, storage_read. rewrite Hh. apply grows_refl. }
  destruct (Storage.read (m_codeTable h, ch) (m_rollbackableStorage s)) as [c|] eqn:Hc.
  2:{ unfold call, co_await, code, co_await, storage_read. rewrite Hh, Hc. apply grows_refl. }
  destruct c as [|c0 c].
  { unfold call, co_await, code, co_await, storage_read. rewrite Hh, Hc. apply grows_refl. }
  rewrite (call_unfold exec h m_logs s ch (String c0 c) Hh Hc) by discriminate.
  pose proof (growing_run exec h (call_vm h ch (String c0 c)) Hexec m_logs s) as Hrun.
  destruct (run _ _ _ _ _) as [[[r l]|e|] s1]; simpl in *; try exact Hrun.
  destruct (negb _); simpl; [apply (rollback_grows _ _ Hrun) | exact Hrun].
Qed.

Lemma growing_execute (fuel : nat) (h : HostContext) : growing (execute fuel h).
Proof.
  revert h; induction fuel as [|fuel IH]; intros h.
  - intros s. apply grows_refl.
  - simpl. unfold execute_with.
    destruct (_ || _); [apply growing_create | apply growing_call]; exact IH.
Qed.

End HostFacts.

(* ===================================================================== *)
(** * Depth: [Exhausted] is the only effect of a small [fuel]              *)
(* ===================================================================== *)

Section Depth.
Context `{Collaborators}.

Lemma finishes_as_refl {A} (m : Task A) : finishes_as m m.
Proof. intros s o s' E _. exact E. Qed.

Lemma finishes_as_co_await {A B} (m1 m2 : Task A) (k1 k2 : A -> Task B) :
  finishes_as m1 m2 -> (forall a, finishes_as (k1 a) (k2 a)) ->
  finishes_as (co_await m1 k1) (co_await m2 k2).
Proof.
  intros Hm Hk s o s'. unfold co_await.
  destruct (m1 s) as [[a|e|] s1] eqn:E1.
  - rewrite (Hm s (Return a) s1 E1) by discriminate. apply Hk.
  - rewrite (Hm s (Throw e) s1 E1) by discriminate. auto.
  - intros [= <- <-] Hne. congruence.
Qed.

Lemma finishes_as_externalCall (e1 e2 : HostContext -> Task (EVMCResult * list LogEntry))
    (h : HostContext) (message : evmc_message) (m_logs : list LogEntry) :
  (forall hc, finishes_as (e1 hc) (e2 hc)) ->
  finishes_as (externalCall e1 h message m_logs) (externalCall e2 h message m_logs).
Proof.
  intros He. unfold externalCall.
  destruct (lookupPrecompiled message); [apply finishes_as_refl|].
  apply finishes_as_co_await; [apply finishes_as_refl | intros _].
  apply finishes_as_co_await; [apply finishes_as_refl | intros hc].
  apply finishes_as_co_await; [apply He | intros [r l]; apply finishes_as_refl].
Qed.

Lemma finishes_as_run (e1 e2 : HostContext -> Task (EVMCResult * list LogEntry))
    (h : HostContext) (p : vm) :
  (forall hc, finishes_as (e1 hc) (e2 hc)) ->
  forall m_logs, finishes_as (run e1 h p m_logs) (run e2 h p m_logs).
Proof.
  intros He.
  induction p as [r|key k IH|key val k IH|a k IH|a k IH|a k IH|n k IH|t d k IH|m k IH];
    intros m_logs; simpl; try apply finishes_as_refl;
    try (apply finishes_as_co_await; [apply finishes_as_refl | intros v; apply IH]).
  - apply IH.
  - apply finishes_as_co_await; [now apply finishes_as_externalCall | intros [r l]; apply IH].
Qed.

Lemma finishes_as_execute_with (e1 e2 : HostContext -> Task (EVMCResult * list LogEntry))
    (h : HostContext) :
  (forall hc, finishes_as (e1 hc) (e2 hc)) ->
  finishes_as (execute_with e1 h) (execute_with e2 h).
Proof.
  intros He. unfold execute_with. destruct (_ || _).
  - unfold create.
    apply finishes_as_co_await; [apply finishes_as_refl | intros sp].
    apply finishes_as_co_await; [now apply finishes_as_run | intros [r l]].
    apply finishes_as_refl.
  - unfold call.
    apply finishes_as_co_await; [apply finishes_as_refl | intros [entry|]];
      [|apply finishes_as_refl].
    destruct (_ =? _)%nat; [apply finishes_as_refl|].
    apply finishes_as_co_await; [apply finishes_as_refl | intros ch].
    apply finishes_as_co_await; [apply finishes_as_refl | intros sp].
    apply finishes_as_co_await; [now apply finishes_as_run | intros [r l]].
    apply finishes_as_refl.
Qed.

(** An execution that ends within some depth ends the same way within
    any greater depth. *)
Lemma execute_more_fuel (fuel extra : nat) (h : HostContext) :
  finishes_as (execute fuel h) (execute (fuel + extra) h).
Proof.
  revert h. induction fuel as [|fuel IH]; intros h.
  - intros s o s' [= <- <-] Hne. congruence.
  - simpl. apply finishes_as_execute_with. exact IH.
Qed.

End Depth.

(* ===================================================================== *)
(** * Properties of the key codec                                         *)
(* ===================================================================== *)

Module KeyCodec.
Import StateKeyResolver StateKeyResolverFacts.

(** Round trip for any key: only the table has to be free of the
    separator, because [decode] cuts at the first separator. *)
Lemma decode_encode_first_split (table key : string) :
  table <> EmptyString -> key <> EmptyString -> ~ has_split table ->
  decode (encode (table, key)) = inr (table, key).
Proof.
  intros Ht Hk Hs. rewrite encode_eq.
  rewrite decode_split by (apply no_split_find; exact Hs).
  now rewrite (empty_false _ Ht), (empty_false _ Hk).
Qed.

(** C4. For every non-empty table and non-empty key, neither containing
    the separator byte, decoding the encoded pair returns exactly the
    pair. *)
Theorem decode_encode_roundtrip (table key : string) :
  table <> EmptyString -> key <> EmptyString ->
  ~ has_split table -> ~ has_split key ->
  decode (encode (table, key)) = inr (table, key).
Proof. intros Ht Hk Hs _. now apply decode_encode_first_split. Qed.

Lemma decode_encode_roundtrip_witness :
  ~ has_split "/apps/a" /\ ~ has_split "codeHash" /\
  decode (encode ("/apps/a", "codeHash")) = inr ("/apps/a", "codeHash").
Proof.
  assert (Ht : ~ has_split "/apps/a") by (apply no_split_find; reflexivity).
  assert (Hk : ~ has_split "codeHash") by (apply no_split_find; reflexivity).
  split; [exact Ht | split; [exact Hk|]].
  apply (decode_encode_roundtrip "/apps/a" "codeHash"); try discriminate; assumption.
Defined.

(** C5. [decode] fails with [InvalidStateKey] exactly on malformed keys:
    a buffer without separator, or one whose first separator leaves the
    table segment empty (separator at position 0) or the key segment
    empty (separator at the last position), is rejected; a buffer whose
    first separator has a non-empty segment on both sides decodes to
    those two segments. No other failure occurs. *)
Theorem decode_rejects_exactly_malformed (buffer : string) :
  (decode buffer = inl InvalidStateKey <->
     ~ has_split buffer \/
     exists table key,
       buffer = table +:+ String TABLE_KEY_SPLIT key /\ ~ has_split table /\
       (table = EmptyString \/ key = EmptyString))
  /\
  (forall table key,
      buffer = table +:+ String TABLE_KEY_SPLIT key -> ~ has_split table ->
      table <> EmptyString -> key <> EmptyString ->
      decode buffer = inr (table, key))
  /\
  ((exists table key, decode buffer = inr (table, key)) \/
   decode buffer = inl InvalidStateKey).
Proof.
  split; [split|split].
  - intros Hd. destruct (find TABLE_KEY_SPLIT buffer) as [pos|] eqn:F.
    + right. destruct (find_Some_split _ _ _ F) as (t & k & -> & _ & Hn).
      exists t, k. split; [reflexivity|]. split; [now apply no_split_find|].
      rewrite (decode_split t k Hn) in Hd.
      destruct t; [now left|]. destruct k; [now right|]. discriminate.
    + left. now apply no_split_find.
  - intros [Hn | (t & k & -> & Hn & He)].
    + apply no_split_find in Hn. unfold decode. now rewrite Hn.
    + apply no_split_find in Hn. rewrite (decode_split t k Hn).
      destruct He as [-> | ->]; [reflexivity|]. now rewrite orb_true_r.
  - intros t k -> Hn Ht Hk. apply no_split_find in Hn.
    rewrite (decode_split t k Hn). now rewrite (empty_false _ Ht), (empty_false _ Hk).
  - destruct (find TABLE_KEY_SPLIT buffer) as [pos|] eqn:F.
    + destruct (find_Some_split _ _ _ F) as (t & k & -> & _ & Hn).
      rewrite (decode_split t k Hn).
      destruct (empty t || empty k); [now right | left; now exists t, k].
    + right. unfold decode. now rewrite F.
Qed.

(** C10. The round trip needs no condition on the key beyond being
    non-empty: for a non-empty, separator-free table and any non-empty
    key, also one that contains separator bytes, decoding the encoded
    pair returns the pair. *)
Theorem decode_encode_roundtrip_any_key (table key : string) :
  table <> EmptyString -> key <> EmptyString -> ~ has_split table ->
  decode (encode (table, key)) = inr (table, key).
Proof. apply decode_encode_first_split. Qed.

Lemma decode_encode_roundtrip_any_key_witness :
  has_split "a:b:" /\ decode (encode ("s_tables", "a:b:")) = inr ("s_tables", "a:b:").
Proof.
  split; [exists 1%nat; reflexivity|].
  apply (decode_encode_roundtrip_any_key "s_tables" "a:b:");
    try discriminate; apply no_split_find; reflexivity.
Defined.

End KeyCodec.

(* ===================================================================== *)
(** * Properties of the code storage procedure                            *)
(* ===================================================================== *)

Section CodeStorage.
Context `{Collaborators}.

Lemma setCode_effect (h : HostContext) (codeHash code : bytes) (s : State) :
  setCode h codeHash code s =
    (Return tt, with_storage s (stored_code h codeHash code (m_rollbackableStorage s))).
Proof.
  unfold setCode, stored_code, co_await, storage_existsOne.
  destruct (Storage.existsOne _ _); reflexivity.
Qed.

Lemma setCodeAndABI_effect (h : HostContext) (code abi : bytes) (s : State) :
  setCodeAndABI h code abi s =
    (Return tt,
     with_storage s (stored_abi h (hash code) abi
                       (stored_code h (hash code) code (m_rollbackableStorage s)))).
Proof.
  unfold setCodeAndABI. unfold co_await at 1. rewrite setCode_effect.
  unfold co_await, storage_read, stored_abi, Storage.existsOne.
  cbn [with_storage m_rollbackableStorage].
  destruct (Storage.read (m_abiTable h, hash code) _); reflexivity.
Qed.

Lemma existsOne_read (st : Storage.t) (key : string * string) :
  Storage.existsOne st key = true <-> exists e, Storage.read key st = Some e.
Proof.
  unfold Storage.existsOne. destruct (Storage.read key st) as [e|].
  - split; [eauto | reflexivity].
  - split; [discriminate | intros [e He]; discriminate].
Qed.

Lemma existsOne_write (st : Storage.t) (key key' : string * string) (e : string) :
  Storage.existsOne (Storage.write key' e st) key =
    if decide (key' = key) then true else Storage.existsOne st key.
Proof. unfold Storage.existsOne, Storage.write. simpl. now destruct (decide _). Qed.

(** After [setCode] the code table holds an entry under the hash. *)
Lemma stored_code_exists (h : HostContext) (codeHash code : bytes) (st : Storage.t) :
  Storage.existsOne (stored_code h codeHash code st) (m_codeTable h, codeHash) = true.
Proof.
  unfold stored_code. rewrite existsOne_write.
  destruct (decide _); [reflexivity|].
  destruct (Storage.existsOne st _) eqn:E; [exact E|].
  rewrite existsOne_write. now rewrite decide_True.
Qed.

Lemma codeTableKeys_write (st : Storage.t) (table key entry : string) :
  codeTableKeys (Storage.write (table, key) entry st) =
    if decide (table = SYS_CODE_BINARY) then {[ (table, key) ]} ∪ codeTableKeys st
    else codeTableKeys st.
Proof.
  unfold codeTableKeys, Storage.write. simpl.
  rewrite dom_insert_L, filter_union_L, filter_singleton_L. simpl.
  destruct (decide _) as [E|E]; [reflexivity | apply (left_id_L ∅ (∪))].
  all: apply _.
Qed.

Lemma codeTableKeys_exists (st : Storage.t) (key : string) :
  Storage.existsOne st (SYS_CODE_BINARY, key) = true ->
  {[ (SYS_CODE_BINARY, key) ]} ∪ codeTableKeys st = codeTableKeys st.
Proof.
  intros Hex. apply existsOne_read in Hex as [e He].
  rewrite <- StorageFacts.contents_read in He.
  apply set_eq. intros k. unfold codeTableKeys.
  rewrite elem_of_union, elem_of_singleton, elem_of_filter, elem_of_dom.
  split; [|tauto]. intros [-> | Hk]; [|exact Hk].
  split; [reflexivity | eauto].
Qed.

Lemma read_stored_code_hash (h : HostContext) (codeHash code : bytes) (st : Storage.t) :
  Storage.read (m_myContractTable h, ACCOUNT_CODE_HASH) (stored_code h codeHash code st)
  = Some codeHash.
Proof. apply StorageFacts.read_write_eq. Qed.

(** The code entry [setCode] leaves under the hash, when the contract's
    table is not the code table. *)
Lemma read_stored_code (h : HostContext) (codeHash code : bytes) (st : Storage.t) :
  m_myContractTable h <> m_codeTable h ->
  Storage.read (m_codeTable h, codeHash) (stored_code h codeHash code st)
  = Some (default code (Storage.read (m_codeTable h, codeHash) st)).
Proof.
  intros Hne. unfold stored_code.
  rewrite StorageFacts.read_write_ne by congruence.
  unfold Storage.existsOne.
  destruct (Storage.read (m_codeTable h, codeHash) st) as [e|] eqn:E; simpl.
  - exact E.
  - apply StorageFacts.read_write_eq.
Qed.

(** C6. The code storage procedure writes the code bytes into the code
    table under the code's hash only if no entry exists under that hash,
    always writes the hash into the contract's own table under the code
    hash field (the latest write, hence overwriting), and writes the ABI
    under the hash only if the ABI table has no entry under it. A second
    deployment of the same bytes, by any host over the same code table,
    writes no code again: the code table gains the one key of that hash
    and nothing else, and both contracts point to it. *)
Theorem code_storage_procedure (h : HostContext) (code abi : bytes) (s : State) :
  let st := m_rollbackableStorage s in
  let codeHash := hash code in
  let st1 := stored_code h codeHash code st in
  setCode1 h code s = (Return tt, with_storage s st1) /\
  setCodeAndABI h code abi s = (Return tt, with_storage s (stored_abi h codeHash abi st1)) /\
  st1 = (if Storage.existsOne st (m_codeTable h, codeHash)
         then [((m_myContractTable h, ACCOUNT_CODE_HASH), codeHash)]
         else [((m_myContractTable h, ACCOUNT_CODE_HASH), codeHash);
               ((m_codeTable h, codeHash), code)]) ++ st /\
  stored_abi h codeHash abi st1 =
    (if Storage.existsOne st1 (m_abiTable h, codeHash) then []
     else [((m_abiTable h, codeHash), abi)]) ++ st1 /\
  Storage.read (m_myContractTable h, ACCOUNT_CODE_HASH) st1 = Some codeHash /\
  (forall h' : HostContext,
      m_codeTable h' = m_codeTable h ->
      let st2 := stored_code h' codeHash code st1 in
      setCode1 h' code (with_storage s st1) = (Return tt, with_storage s st2) /\
      st2 = ((m_myContractTable h', ACCOUNT_CODE_HASH), codeHash) :: st1 /\
      Storage.read (m_myContractTable h, ACCOUNT_CODE_HASH) st2 = Some codeHash /\
      Storage.read (m_myContractTable h', ACCOUNT_CODE_HASH) st2 = Some codeHash /\
      (m_codeTable h = SYS_CODE_BINARY ->
       m_myContractTable h <> SYS_CODE_BINARY ->
       m_myContractTable h' <> SYS_CODE_BINARY ->
       codeTableKeys st2 = {[ (SYS_CODE_BINARY, codeHash) ]} ∪ codeTableKeys st /\
       Storage.read (SYS_CODE_BINARY, codeHash) st2
       = Some (default code (Storage.read (SYS_CODE_BINARY, codeHash) st)))).
Proof.
  intros st codeHash st1.
  assert (Hst1 : st1 = (if Storage.existsOne st (m_codeTable h, codeHash)
         then [((m_myContractTable h, ACCOUNT_CODE_HASH), codeHash)]
         else [((m_myContractTable h, ACCOUNT_CODE_HASH), codeHash);
               ((m_codeTable h, codeHash), code)]) ++ st).
  { unfold st1, stored_code, Storage.write.
    destruct (Storage.existsOne st _); reflexivity. }
  split; [apply setCode_effect|].
  split; [apply setCodeAndABI_effect|].
  split; [exact Hst1|].
  split; [unfold stored_abi, Storage.write; destruct (Storage.existsOne st1 _); reflexivity|].
  split; [apply read_stored_code_hash|].
  intros h' Hct st2.
  assert (Hst2 : st2 = ((m_myContractTable h', ACCOUNT_CODE_HASH), codeHash) :: st1).
  { unfold st2, stored_code at 1. rewrite Hct.
    unfold st1. rewrite stored_code_exists. reflexivity. }
  split; [unfold setCode1; rewrite setCode_effect; reflexivity|].
  split; [exact Hst2|].
  split.
  { rewrite Hst2. simpl. destruct (decide _); [reflexivity|].
    apply read_stored_code_hash. }
  split; [apply read_stored_code_hash|].
  intros Hsys Hmy Hmy'. split.
  - rewrite Hst2.
    change (((m_myContractTable h', ACCOUNT_CODE_HASH), codeHash) :: st1)
      with (Storage.write (m_myContractTable h', ACCOUNT_CODE_HASH) codeHash st1).
    rewrite codeTableKeys_write, decide_False by exact Hmy'.
    unfold st1, stored_code.
    rewrite codeTableKeys_write, decide_False by exact Hmy.
    rewrite Hsys.
    destruct (Storage.existsOne st (SYS_CODE_BINARY, codeHash)) eqn:E.
    + symmetry. now apply codeTableKeys_exists.
    + rewrite codeTableKeys_write, decide_True by reflexivity. reflexivity.
  - rewrite Hst2.
    change (((m_myContractTable h', ACCOUNT_CODE_HASH), codeHash) :: st1)
      with (Storage.write (m_myContractTable h', ACCOUNT_CODE_HASH) codeHash st1).
    rewrite StorageFacts.read_write_ne by congruence.
    rewrite <- Hsys. apply read_stored_code. congruence.
Qed.

End CodeStorage.

(* ===================================================================== *)
(** * Properties of the host                                              *)
(* ===================================================================== *)

Section HostProperties.
Context `{Collaborators}.

(** C1. For [create] and for [call]: when the interpreter returns a
    result whose status is not success, the host rolls the storage back
    to the savepoint it took right before running the interpreter and
    returns that result (status, output and all) unchanged; the storage
    is then exactly the storage from before the run, so no write of the
    failed run, nor of anything nested in it, is visible to a read. *)
Theorem failed_execution_rolls_back (fuel : nat) (h : HostContext)
    (m_logs m_logs' : list LogEntry) (s s1 : State) (result : EVMCResult) :
  status_code result <> 0 ->
  (run (execute fuel) h (create_vm h) m_logs s = (Return (result, m_logs'), s1) ->
   exists s2,
     create (execute fuel) h m_logs s = (Return (result, m_logs'), s2) /\
     m_rollbackableStorage s2 =
       Storage.rollback (Storage.current (m_rollbackableStorage s)) (m_rollbackableStorage s1) /\
     m_rollbackableStorage s2 = m_rollbackableStorage s /\
     (forall key, Storage.read key (m_rollbackableStorage s2)
                  = Storage.read key (m_rollbackableStorage s)))
  /\
  (forall codeHashEntry codeEntry : bytes,
      Storage.read (getTableNameID (code_address (m_message h)), ACCOUNT_CODE_HASH)
        (m_rollbackableStorage s) = Some codeHashEntry ->
      Storage.read (m_codeTable h, codeHashEntry) (m_rollbackableStorage s) = Some codeEntry ->
      codeEntry <> EmptyString ->
      run (execute fuel) h (call_vm h codeHashEntry codeEntry) m_logs s
        = (Return (result, m_logs'), s1) ->
      exists s2,
        call (execute fuel) h m_logs s = (Return (result, m_logs'), s2) /\
        m_rollbackableStorage s2 =
          Storage.rollback (Storage.current (m_rollbackableStorage s)) (m_rollbackableStorage s1) /\
        m_rollbackableStorage s2 = m_rollbackableStorage s /\
        (forall key, Storage.read key (m_rollbackableStorage s2)
                     = Storage.read key (m_rollbackableStorage s))).
Proof.
  intros Hfail.
  assert (Hneq : negb (status_code result =? 0) = true).
  { apply negb_true_iff, Z.eqb_neq. exact Hfail. }
  split.
  - intros Hrun.
    pose proof (growing_run (execute fuel) h (create_vm h) (growing_execute fuel) m_logs s)
      as Hg. rewrite Hrun in Hg. simpl in Hg.
    eexists. rewrite create_unfold, Hrun, Hneq.
    split; [reflexivity|]. split; [reflexivity|].
    pose proof (rollback_restores s s1 Hg) as Hr.
    split; [exact Hr | intros key; now rewrite Hr].
  - intros ch ce Hh Hc Hne Hrun.
    pose proof (growing_run (execute fuel) h (call_vm h ch ce) (growing_execute fuel) m_logs s)
      as Hg. rewrite Hrun in Hg. simpl in Hg.
    eexists. rewrite (call_unfold _ h m_logs s ch ce Hh Hc Hne), Hrun, Hneq.
    split; [reflexivity|]. split; [reflexivity|].
    pose proof (rollback_restores s s1 Hg) as Hr.
    split; [exact Hr | intros key; now rewrite Hr].
Qed.

(** C3. When the code looked up for the code address of the message is
    absent or has length zero, [call] throws [NotFoundCodeError] (an
    exception, not a result with a failure status) and the state,
    storage included, is as before; so does [execute] for every message
    that is not a creation. *)
Theorem call_without_code_throws (exec : HostContext -> Task (EVMCResult * list LogEntry))
    (h : HostContext) (m_logs : list LogEntry) (s : State) :
  (code h (code_address (m_message h)) s).1 = Return None \/
  (exists entry, (code h (code_address (m_message h)) s).1 = Return (Some entry) /\
                 String.length entry = 0%nat) ->
  call exec h m_logs s = (Throw NotFoundCodeError, s) /\
  (kind (m_message h) <> EVMC_CREATE -> kind (m_message h) <> EVMC_CREATE2 ->
   forall fuel, execute (S fuel) h s = (Throw NotFoundCodeError, s)).
Proof.
  intros Hcode.
  assert (Hcall : forall e l, call e h l s = (Throw NotFoundCodeError, s)).
  { intros e l. unfold call. unfold co_await at 1.
    destruct (code_returns h (code_address (m_message h)) s) as [o Ho].
    rewrite Ho in *. simpl in Hcode.
    destruct Hcode as [[= ->] | (entry & [= ->] & Hlen)]; [reflexivity|].
    rewrite Hlen. reflexivity. }
  split; [apply Hcall|].
  intros Hc1 Hc2 fuel. simpl. unfold execute_with.
  rewrite !bool_decide_eq_false_2 by assumption. apply Hcall.
Qed.



(** C7, as the code has it. A nested message whose code address, read
    as a number, lies strictly between 0 and the ceiling 100000, and for
    which the registry returns a handler, is answered by the handler:
    [externalCall] returns its result and leaves the whole shared state,
    the counter and the history of constructed hosts included, as it
    is. Every other nested message (address 0 included) increments the
    counter and then constructs the nested host, which sees the counter
    one above its old value; at the end the counter has advanced by one
    for each host constructed since, hence by exactly one for this
    dispatch. *)
Theorem precompiled_dispatch_and_counter (fuel : nat) (h : HostContext)
    (message : evmc_message) (m_logs : list LogEntry) (s : State) :
  let address := fromBigEndian (code_address message) in
  (forall precompiled,
      0 < address < MAX_PRECOMPILED_ADDRESS ->
      getPrecompiled address = Some precompiled ->
      externalCall (execute fuel) h message m_logs s
        = (Return (precompiled message, m_logs), s))
  /\
  (~ 0 < address < MAX_PRECOMPILED_ADDRESS \/ getPrecompiled address = None ->
   forall o s',
     externalCall (execute fuel) h message m_logs s = (o, s') ->
     exists built,
       constructed s' = constructed s ++ (messageWithSender h message, m_seq s + 1) :: built /\
       m_seq s' = m_seq s + 1 + Z.of_nat (length built)).
Proof.
  intros address. split.
  - intros p [Hlo Hhi] Hp. unfold externalCall, lookupPrecompiled.
    fold address.
    apply Z.ltb_lt in Hlo, Hhi. rewrite Hlo, Hhi. simpl. rewrite Hp. reflexivity.
  - intros Hnot o s' Hcall.
    assert (Hpre : lookupPrecompiled message = None).
    { unfold lookupPrecompiled. fold address.
      destruct (0 <? address) eqn:Hlo; [|reflexivity].
      destruct (address <? MAX_PRECOMPILED_ADDRESS) eqn:Hhi; [|reflexivity].
      simpl. destruct Hnot as [Hn | Hn]; [|exact Hn].
      exfalso. apply Hn. apply Z.ltb_lt in Hlo, Hhi. lia. }
    exact (proj2 (externalCall_dispatch (execute fuel) h message m_logs s s' o
                    (growing_execute fuel) Hpre Hcall)).
Qed.

(** C8, as the code has it. A nested CREATE message whose sender is the
    all-zero address is handed to the nested host with its sender
    replaced by [m_newContractAddress] of the dispatching host, all
    other fields kept; every other nested message is handed on as it
    is, and a precompiled handler receives the message as it is. For a
    dispatching host that was itself constructed for a CREATE message
    that member is the address derived in its constructor; for a host
    constructed for any other kind it is the all-zero address, so the
    sender stays zero. *)
Theorem nested_create_sender (fuel : nat) (h : HostContext)
    (message : evmc_message) (m_logs : list LogEntry) (s : State) :
  (lookupPrecompiled message = None ->
   forall o s',
     externalCall (execute fuel) h message m_logs s = (o, s') ->
     exists built,
       constructed s' = constructed s ++ (messageWithSender h message, m_seq s + 1) :: built)
  /\
  (forall precompiled,
      lookupPrecompiled message = Some precompiled ->
      externalCall (execute fuel) h message m_logs s
        = (Return (precompiled message, m_logs), s))
  /\
  (kind message = EVMC_CREATE -> sender message = EMPTY_ADDRESS ->
   messageWithSender h message =
     {| kind := kind message; depth := depth message; gas := gas message;
        recipient := recipient message; sender := m_newContractAddress h;
        input_data := input_data message; value := value message;
        code_address := code_address message |})
  /\
  (kind message <> EVMC_CREATE \/ sender message <> EMPTY_ADDRESS ->
   messageWithSender h message = message)
  /\
  (forall blockHeader parent origin contextID s0 s0',
      HostContext_new blockHeader parent origin contextID s0 = (Return h, s0') ->
      m_newContractAddress h =
        if bool_decide (kind parent = EVMC_CREATE)
        then String.substring 0 20
               (hash (format_address (number blockHeader) contextID (m_seq s0)))
        else EMPTY_ADDRESS).
Proof.
  split; [|split; [|split; [|split]]].
  - intros Hpre o s' Hcall.
    destruct (externalCall_dispatch (execute fuel) h message m_logs s s' o
                (growing_execute fuel) Hpre Hcall) as [_ [built [Hb _]]].
    now exists built.
  - intros p Hp. unfold externalCall. rewrite Hp. reflexivity.
  - intros Hk Hs. unfold messageWithSender.
    rewrite bool_decide_eq_true_2 by exact Hk.
    rewrite Hs, String.eqb_refl. reflexivity.
  - intros Hor. unfold messageWithSender.
    destruct Hor as [Hk | Hs].
    + rewrite bool_decide_eq_false_2 by exact Hk. reflexivity.
    + apply String.eqb_neq in Hs. rewrite Hs, andb_false_r. reflexivity.
  - intros bh parent origin c s0 s0'. unfold HostContext_new, getMyContractTable.
    destruct (kind parent) eqn:Hk; simpl;
      try discriminate; intros [= <- _]; reflexivity.
Qed.

(** C9. When a nested dispatch constructs a host and that host's
    [execute] returns, the logs the nested host accumulated are appended,
    in their order, to the log list of the dispatching host if the
    status of the result is success, and are dropped if it is not; the
    decision looks at the status alone, whatever the nested execution
    did to the storage. *)
Theorem nested_logs_merged_on_success
    (exec : HostContext -> Task (EVMCResult * list LogEntry))
    (h hostcontext : HostContext) (message : evmc_message)
    (m_logs logs : list LogEntry) (s s1 s2 : State) (result : EVMCResult) :
  lookupPrecompiled message = None ->
  HostContext_new (m_blockHeader h) (messageWithSender h message) (m_origin h)
    (m_contextID h) (incr_seq s).2 = (Return hostcontext, s1) ->
  exec hostcontext s1 = (Return (result, logs), s2) ->
  externalCall exec h message m_logs s =
    (Return (result, if status_code result =? EVMC_SUCCESS then m_logs ++ logs else m_logs),
     s2).
Proof.
  intros Hpre Hnew Hexec. unfold externalCall. rewrite Hpre.
  unfold co_await at 1. unfold incr_seq at 1. simpl in Hnew.
  unfold co_await at 1. rewrite Hnew.
  unfold co_await at 1. rewrite Hexec.
  destruct (status_code result =? EVMC_SUCCESS); [|reflexivity].
  destruct (bool_decide (logs = [])) eqn:E; simpl; [|reflexivity].
  apply bool_decide_eq_true_1 in E. subst logs. rewrite app_nil_r. reflexivity.
Qed.

End HostProperties.


(* ===================================================================== *)
(** * The properties at work in the concrete world                        *)
(* ===================================================================== *)

Module Run.
Import Demo.

#[local] Existing Instance collaborators.

(** A creation whose code writes a slot, logs, and then reverts; and a
    call to a contract with the same code. Both leave the storage as it
    was. *)
Lemma failed_execution_rolls_back_witness :
  let s := state [] 0 in
  let h := host (message EVMC_CREATE origin EMPTY_ADDRESS "revert") s in
  let sc := state (deployed (contract "a") "revert") 0 in
  let hc := host (message EVMC_CALL origin (contract "a") "") sc in
  (exists m_logs' s1 s2,
      run (execute 1) h (create_vm h) [] s = (Return (reverted, m_logs'), s1) /\
      m_rollbackableStorage s1 = [((m_myContractTable h, "slot"), "value")] /\
      create (execute 1) h [] s = (Return (reverted, m_logs'), s2) /\
      m_rollbackableStorage s2 = []) /\
  (exists m_logs' s1 s2,
      run (execute 1) hc (call_vm hc (pad32 "revert") "revert") [] sc
        = (Return (reverted, m_logs'), s1) /\
      m_rollbackableStorage s1
        = ((m_myContractTable hc, "slot"), "value") :: deployed (contract "a") "revert" /\
      call (execute 1) hc [] sc = (Return (reverted, m_logs'), s2) /\
      m_rollbackableStorage s2 = deployed (contract "a") "revert").
Proof.
  intros s h sc hc. split.
  - assert (Hrun : exists l s1,
               run (execute 1) h (create_vm h) [] s = (Return (reverted, l), s1) /\
               m_rollbackableStorage s1 = [((m_myContractTable h, "slot"), "value")]).
    { eexists _, _. split; vm_compute; reflexivity. }
    destruct Hrun as (l & s1 & Hrun & Hs1).
    destruct (failed_execution_rolls_back 1 h [] l s s1 reverted ltac:(discriminate))
      as [Hcreate _].
    destruct (Hcreate Hrun) as (s2 & Hc & _ & Hst & _).
    exists l, s1, s2. repeat split; assumption.
  - assert (Hrun : exists l s1,
               run (execute 1) hc (call_vm hc (pad32 "revert") "revert") [] sc
                 = (Return (reverted, l), s1) /\
               m_rollbackableStorage s1
                 = ((m_myContractTable hc, "slot"), "value") :: deployed (contract "a") "revert").
    { eexists _, _. split; vm_compute; reflexivity. }
    destruct Hrun as (l & s1 & Hrun & Hs1).
    destruct (failed_execution_rolls_back 1 hc [] l sc s1 reverted ltac:(discriminate))
      as [_ Hcall].
    destruct (Hcall (pad32 "revert") "revert" eq_refl eq_refl ltac:(discriminate) Hrun)
      as (s2 & Hc & _ & Hst & _).
    exists l, s1, s2. repeat split; assumption.
Defined.

(** A call to an address without code, over an empty storage. *)
Lemma call_without_code_throws_witness :
  let s := state [] 0 in
  let h := host (message EVMC_CALL origin (contract "a") "") s in
  (code h (code_address (m_message h)) s).1 = Return None /\
  call (execute 1) h [] s = (Throw NotFoundCodeError, s) /\
  execute 3 h s = (Throw NotFoundCodeError, s).
Proof.
  intros s h.
  assert (Hcode : (code h (code_address (m_message h)) s).1 = Return None) by reflexivity.
  destruct (call_without_code_throws (execute 1) h [] s (or_introl Hcode)) as [Hcall Hexec].
  split; [exact Hcode|]. split; [exact Hcall|].
  apply Hexec; discriminate.
Defined.



(** A nested call to address 1, which the registry answers, and one to a
    contract address, which it does not. *)
Lemma precompiled_dispatch_and_counter_witness :
  let s := state [] 5 in
  let h := host (message EVMC_CALL origin (contract "a") "") s in
  let to_one := message EVMC_CALL (contract "a") one "" in
  let to_b := message EVMC_CALL (contract "a") (contract "b") "" in
  fromBigEndian (code_address to_one) = 1 /\
  externalCall (execute 1) h to_one [] s = (Return (handler to_one, []), s) /\
  exists o s' built,
    externalCall (execute 1) h to_b [] s = (o, s') /\
    constructed s' = (to_b, 6) :: built /\
    m_seq s' = 6 + Z.of_nat (length built).
Proof.
  intros s h to_one to_b.
  destruct (precompiled_dispatch_and_counter 1 h to_one [] s) as [Hpre _].
  destruct (precompiled_dispatch_and_counter 1 h to_b [] s) as [_ Hnest].
  split; [reflexivity|].
  split; [apply Hpre; [split; reflexivity | reflexivity]|].
  destruct (externalCall (execute 1) h to_b [] s) as [o s'] eqn:E.
  assert (Hhigh : ~ 0 < fromBigEndian (code_address to_b) < MAX_PRECOMPILED_ADDRESS).
  { intros [_ Hhi]. vm_compute in Hhi. discriminate. }
  destruct (Hnest (or_introl Hhigh) o s' eq_refl) as (built & Hb & Hq).
  exists o, s', built. split; [reflexivity|]. split; [exact Hb | exact Hq].
Defined.

(** Address 0 is below the ceiling and this registry has a handler for
    it, yet the message is dispatched to a nested host: the counter goes
    from 5 to 6, a host is constructed, and (there being no code at
    address 0) the nested call throws; the handler's result is not what
    comes back. *)
Lemma precompiled_address_zero_counterexample :
  let s := state [] 5 in
  let h := host (message EVMC_CALL origin (contract "a") "") s in
  let to_zero := message EVMC_CALL (contract "a") EMPTY_ADDRESS "" in
  fromBigEndian (code_address to_zero) = 0 /\
  fromBigEndian (code_address to_zero) < MAX_PRECOMPILED_ADDRESS /\
  getPrecompiled (fromBigEndian (code_address to_zero)) = Some handler /\
  externalCall (execute 1) h to_zero [] s
    = (Throw NotFoundCodeError,
       {| m_rollbackableStorage := []; m_seq := 6; constructed := [(to_zero, 6)] |}) /\
  externalCall (execute 1) h to_zero [] s <> (Return (handler to_zero, []), s).
Proof.
  intros s h to_zero.
  split; [reflexivity|]. split; [reflexivity|]. split; [reflexivity|].
  assert (E : externalCall (execute 1) h to_zero [] s
              = (Throw NotFoundCodeError,
                 {| m_rollbackableStorage := []; m_seq := 6;
                    constructed := [(to_zero, 6)] |}))
    by (vm_compute; reflexivity).
  split; [exact E|]. rewrite E. discriminate.
Qed.

(** A host created at sequence 0 dispatches a CREATE with the zero
    sender: the nested host is built for the message with the parent's
    derived address as sender. *)
Lemma nested_create_sender_witness :
  let s := state [] 0 in
  let parent := message EVMC_CREATE origin EMPTY_ADDRESS "spawn" in
  let h := host parent s in
  let nested := message EVMC_CREATE EMPTY_ADDRESS EMPTY_ADDRESS "deploy" in
  let derived := String.substring 0 20 (pad32 "10_1_0") in
  lookupPrecompiled nested = None /\
  m_newContractAddress h = derived /\
  messageWithSender h nested = message EVMC_CREATE derived EMPTY_ADDRESS "deploy" /\
  exists o s' built,
    externalCall (execute 1) h nested [] s = (o, s') /\
    constructed s' = (message EVMC_CREATE derived EMPTY_ADDRESS "deploy", 1) :: built.
Proof.
  intros s parent h nested derived.
  destruct (nested_create_sender 1 h nested [] s) as (Hdisp & _ & Hrew & _ & Hnew).
  assert (Hpre : lookupPrecompiled nested = None) by reflexivity.
  assert (Haddr : m_newContractAddress h = derived).
  { rewrite (Hnew header parent origin 1 s
               (HostContext_new header parent origin 1 s).2 eq_refl).
    reflexivity. }
  assert (Hmsg : messageWithSender h nested = message EVMC_CREATE derived EMPTY_ADDRESS "deploy").
  { rewrite (Hrew eq_refl eq_refl), Haddr. reflexivity. }
  split; [exact Hpre|]. split; [exact Haddr|]. split; [exact Hmsg|].
  destruct (externalCall (execute 1) h nested [] s) as [o s'] eqn:E.
  destruct (Hdisp Hpre o s' eq_refl) as (built & Hb).
  exists o, s', built. split; [reflexivity|].
  rewrite Hb, Hmsg. reflexivity.
Defined.

(** A host constructed for a CALL to the contract "aaaa..." works on the
    table of that address, which is its own contract address. When it
    dispatches a CREATE with the zero sender, the nested host is built
    for a message whose sender is still the zero address, not the
    address of the dispatching contract. *)
Lemma nested_create_sender_counterexample :
  let s := state (deployed (contract "a") "spawn") 5 in
  let parent := message EVMC_CALL origin (contract "a") "" in
  let h := host parent s in
  let nested := message EVMC_CREATE EMPTY_ADDRESS EMPTY_ADDRESS "deploy" in
  (HostContext_new header parent origin 1 s).1 = Return h /\
  myContractAddress h = contract "a" /\
  m_myContractTable h = getTableNameID (myContractAddress h) /\
  kind nested = EVMC_CREATE /\
  sender nested = EMPTY_ADDRESS /\
  lookupPrecompiled nested = None /\
  (exists o s',
      externalCall (execute 1) h nested [] s = (o, s') /\
      constructed s' = [(nested, 6)]) /\
  sender (messageWithSender h nested) = EMPTY_ADDRESS /\
  sender (messageWithSender h nested) <> myContractAddress h.
Proof.
  intros s parent h nested.
  do 6 (split; [reflexivity|]).
  split; [eexists _, _; split; vm_compute; reflexivity|].
  split; [reflexivity|]. vm_compute. discriminate.
Qed.

(** A nested creation that logs and succeeds, and one that logs and
    reverts, dispatched by a host that already holds one log entry. *)
Lemma nested_logs_merged_on_success_witness :
  let s := state [] 0 in
  let h := host (message EVMC_CREATE origin EMPTY_ADDRESS "spawn") s in
  let good := message EVMC_CREATE EMPTY_ADDRESS EMPTY_ADDRESS "deploy" in
  let bad := message EVMC_CREATE EMPTY_ADDRESS EMPTY_ADDRESS "revert" in
  let mine := {| log_address := ""; log_topics := ["mine"]; log_data := "" |} in
  let theirs := {| log_address := ""; log_topics := ["topic"]; log_data := "data" |} in
  (exists result s2,
      externalCall (execute 1) h good [mine] s = (Return (result, [mine; theirs]), s2) /\
      status_code result = EVMC_SUCCESS) /\
  (exists result s2,
      externalCall (execute 1) h bad [mine] s = (Return (result, [mine]), s2) /\
      status_code result = 2).
Proof.
  intros s h good bad mine theirs. split.
  - assert (Hn : exists hc s1 r s2,
               HostContext_new (m_blockHeader h) (messageWithSender h good) (m_origin h)
                 (m_contextID h) (incr_seq s).2 = (Return hc, s1) /\
               execute 1 hc s1 = (Return (r, [theirs]), s2) /\
               status_code r = EVMC_SUCCESS).
    { eexists _, _, _, _. split; [|split]; vm_compute; reflexivity. }
    destruct Hn as (hc & s1 & r & s2 & Hnew & Hexec & Hok).
    pose proof (nested_logs_merged_on_success (execute 1) h hc good [mine] [theirs]
                  s s1 s2 r eq_refl Hnew Hexec) as Hcall.
    rewrite Hok in Hcall. exists r, s2. split; [exact Hcall | exact Hok].
  - assert (Hn : exists hc s1 r s2,
               HostContext_new (m_blockHeader h) (messageWithSender h bad) (m_origin h)
                 (m_contextID h) (incr_seq s).2 = (Return hc, s1) /\
               execute 1 hc s1 = (Return (r, [theirs]), s2) /\
               status_code r = 2).
    { eexists _, _, _, _. split; [|split]; vm_compute; reflexivity. }
    destruct Hn as (hc & s1 & r & s2 & Hnew & Hexec & Hfail).
    pose proof (nested_logs_merged_on_success (execute 1) h hc bad [mine] [theirs]
                  s s1 s2 r eq_refl Hnew Hexec) as Hcall.
    rewrite Hfail in Hcall. exists r, s2. split; [exact Hcall | exact Hfail].
Defined.

(** Two contracts, created at sequence 0 and at sequence 1, store the
    same runtime code: the code table gets one entry, and both code hash
    fields hold its key. *)
Lemma code_storage_procedure_witness :
  let s := state [] 0 in
  let h := host (message EVMC_CREATE origin EMPTY_ADDRESS "deploy") s in
  let h' := host (message EVMC_CREATE origin EMPTY_ADDRESS "deploy") (state [] 1) in
  exists st1 st2,
    setCode1 h "runtime" s = (Return tt, with_storage s st1) /\
    setCode1 h' "runtime" (with_storage s st1) = (Return tt, with_storage s st2) /\
    st2 = [ ((m_myContractTable h', "codeHash"), pad32 "runtime");
            ((m_myContractTable h, "codeHash"), pad32 "runtime");
            (("s_code_binary", pad32 "runtime"), "runtime") ] /\
    m_myContractTable h <> m_myContractTable h' /\
    codeTableKeys st2 = {[ ("s_code_binary", pad32 "runtime") ]} ∪ codeTableKeys [].
Proof.
  intros s h h'.
  destruct (code_storage_procedure h "runtime" "" s) as (Hset & _ & Hst1 & _ & _ & Hagain).
  destruct (Hagain h' eq_refl) as (Hset' & Hst2 & _ & _ & Hkeys).
  destruct (Hkeys eq_refl ltac:(vm_compute; discriminate) ltac:(vm_compute; discriminate))
    as [Hk _].
  eexists _, _. split; [exact Hset|]. split; [exact Hset'|].
  split; [rewrite Hst2, Hst1; reflexivity|].
  split; [vm_compute; discriminate | exact Hk].
Defined.

(** A creation that writes a slot and then dispatches a creation that
    writes, logs and reverts: what the nested creation wrote and logged
    is gone, the slot written before it remains, and the outer creation
    goes on to succeed and to store its code. With too little depth for
    the nested host the model reports [Exhausted] instead. *)
Example nested_failure_keeps_outer_writes :
  let s := state [] 0 in
  let h := host (message EVMC_CREATE origin EMPTY_ADDRESS "spawn-revert") s in
  (exists s',
      execute 2 h s
        = (Return (with_create_address (ok "parent") (m_newContractAddress h), []), s') /\
      m_rollbackableStorage s'
        = [ ((m_myContractTable h, "codeHash"), pad32 "parent");
            (("s_code_binary", pad32 "parent"), "parent");
            ((m_myContractTable h, "mine"), "kept") ] /\
      m_seq s' = 1) /\
  (execute 1 h s).1 = Exhausted /\
  execute 7 h s = execute 2 h s.
Proof.
  intros s h. split; [|split].
  - eexists. split; [|split]; vm_compute; reflexivity.
  - reflexivity.
  - destruct (execute 2 h s) as [o s'] eqn:E.
    apply (execute_more_fuel 2 5 h s o s' E).
    vm_compute in E. injection E as <- _. discriminate.
Qed.

End Run.


(* ===================================================================== *)
(** * More on the key codec                                               *)
(* ===================================================================== *)

Module KeyCodecMore.
Import StateKeyResolver StateKeyResolverFacts.

Lemma app_assoc_split (c : ascii) (t1 t2 k : string) :
  (t1 +:+ String c t2) +:+ k = t1 +:+ String c (t2 +:+ k).
Proof.
  induction t1 as [|a t1 IH]; [reflexivity|].
  change (String a ((t1 +:+ String c t2) +:+ k) = String a (t1 +:+ String c (t2 +:+ k))).
  now rewrite IH.
Qed.

(** A buffer splits at its first separator in one way only. *)
Lemma first_split_unique (c : ascii) (t1 k1 t2 k2 : string) :
  find c t1 = None -> find c t2 = None ->
  t1 +:+ String c k1 = t2 +:+ String c k2 -> t1 = t2 /\ k1 = k2.
Proof.
  revert t2. induction t1 as [|a t1 IH]; intros [|b t2] H1 H2 E.
  - injection E as ->. now split.
  - injection E as <- _. simpl in H2. now rewrite Ascii.eqb_refl in H2.
  - injection E as -> _. simpl in H1. now rewrite Ascii.eqb_refl in H1.
  - injection E as -> E. simpl in H1, H2.
    destruct (Ascii.eqb b c); [discriminate|].
    destruct (find c t1) eqn:F1; [discriminate|].
    destruct (find c t2) eqn:F2; [discriminate|].
    destruct (IH t2 eq_refl F2 E) as [-> ->]. now split.
Qed.

(** Whatever [decode] returns is a well-formed pair, and [encode] gives
    back the buffer it was decoded from. *)
Theorem decode_then_encode (buffer table key : string) :
  decode buffer = inr (table, key) ->
  encode (table, key) = buffer /\
  table <> EmptyString /\ key <> EmptyString /\ ~ has_split table.
Proof.
  intros Hd. destruct (find TABLE_KEY_SPLIT buffer) as [pos|] eqn:F.
  - destruct (find_Some_split _ _ _ F) as (t & k & -> & _ & Hn).
    rewrite (decode_split t k Hn) in Hd.
    destruct t as [|a t]; [discriminate|]. destruct k as [|b k]; [discriminate|].
    simpl in Hd. injection Hd as <- <-.
    split; [apply encode_eq|]. split; [discriminate|]. split; [discriminate|].
    now apply no_split_find.
  - unfold decode in Hd. rewrite F in Hd. discriminate.
Qed.

Lemma decode_then_encode_witness :
  decode "s_tables:u_sys:x" = inr ("s_tables", "u_sys:x") /\
  encode ("s_tables", "u_sys:x") = "s_tables:u_sys:x".
Proof.
  assert (Hd : decode "s_tables:u_sys:x" = inr ("s_tables", "u_sys:x")) by reflexivity.
  split; [exact Hd|].
  exact (proj1 (decode_then_encode "s_tables:u_sys:x" "s_tables" "u_sys:x" Hd)).
Defined.

(** On pairs whose table has no separator, [encode] is injective, empty
    tables and keys included. *)
Theorem encode_injective (table1 key1 table2 key2 : string) :
  ~ has_split table1 -> ~ has_split table2 ->
  encode (table1, key1) = encode (table2, key2) ->
  table1 = table2 /\ key1 = key2.
Proof.
  intros H1 H2. rewrite !encode_eq.
  apply first_split_unique; now apply no_split_find.
Qed.

Lemma encode_injective_witness :
  encode ("t", "") = encode ("t", "") /\ ("t" = "t" /\ "" = "").
Proof.
  split; [reflexivity|].
  apply (encode_injective "t" "" "t" "");
    try (apply no_split_find; reflexivity); reflexivity.
Defined.

(** A table that contains the separator is not recovered: [decode] cuts
    the encoded key at the first separator, so the rest of the table ends
    up in front of the key, and a table that starts with the separator is
    rejected. Two different pairs can thus share one flat key. *)
Theorem decode_encode_table_with_split (t1 t2 key : string) :
  ~ has_split t1 ->
  decode (encode (t1 +:+ String TABLE_KEY_SPLIT t2, key)) =
    if empty t1 then inl InvalidStateKey
    else inr (t1, t2 +:+ String TABLE_KEY_SPLIT key).
Proof.
  intros Hn. apply no_split_find in Hn.
  rewrite encode_eq, app_assoc_split, (decode_split _ _ Hn).
  destruct (empty t1); [reflexivity|].
  destruct t2; reflexivity.
Qed.

Lemma decode_encode_table_with_split_witness :
  decode (encode ("a:b", "c")) = inr ("a", "b:c") /\
  encode ("a:b", "c") = encode ("a", "b:c") /\
  decode (encode (":b", "c")) = inl InvalidStateKey.
Proof.
  assert (Ha : ~ has_split "a") by (apply no_split_find; reflexivity).
  assert (He : ~ has_split "") by (apply no_split_find; reflexivity).
  split; [exact (decode_encode_table_with_split "a" "b" "c" Ha)|].
  split; [reflexivity|].
  exact (decode_encode_table_with_split "" "b" "c" He).
Defined.

End KeyCodecMore.

(* ===================================================================== *)
(** * Relations every execution keeps                                     *)
(* ===================================================================== *)

Section Frame.
Context `{Collaborators}.

(** A relation on shared states that is a preorder, does not look at the
    storage, and holds across the two steps of a dispatch (increment the
    counter, construct the nested host). *)
Variable R : State -> State -> Prop.
Hypothesis R_refl : forall s, R s s.
Hypothesis R_trans : forall s1 s2 s3, R s1 s2 -> R s2 s3 -> R s1 s3.
Hypothesis R_storage : forall s st, R s (with_storage s st).
Hypothesis R_dispatch :
  forall s m,
    R s {| m_rollbackableStorage := m_rollbackableStorage s;
           m_seq := m_seq s + 1;
           constructed := constructed s ++ [(m, m_seq s + 1)] |}.

Lemma keeps_co_return {A} (a : A) : keeps R (co_return a).
Proof. intros s. apply R_refl. Qed.

Lemma keeps_throw {A} (e : Exception) : keeps R (@throw A e).
Proof. intros s. apply R_refl. Qed.

Lemma keeps_co_await {A B} (m : Task A) (k : A -> Task B) :
  keeps R m -> (forall a, keeps R (k a)) -> keeps R (co_await m k).
Proof.
  intros Hm Hk s. unfold co_await. specialize (Hm s).
  destruct (m s) as [[a|e|] s']; simpl in *; try exact Hm.
  eapply R_trans; [exact Hm | apply Hk].
Qed.

Lemma keeps_storage_write (key : string * string) (entry : string) :
  keeps R (storage_write key entry).
Proof. intros s. apply (R_storage s). Qed.

Lemma keeps_storage_rollback (savepoint : nat) : keeps R (storage_rollback savepoint).
Proof. intros s. apply (R_storage s). Qed.

Lemma keeps_setCode (h : HostContext) (codeHash code : bytes) :
  keeps R (setCode h codeHash code).
Proof. intros s. rewrite setCode_effect. apply R_storage. Qed.

Lemma keeps_get (h : HostContext) (key : bytes) : keeps R (get h key).
Proof. intros s. destruct (get_returns h key s) as [v ->]. apply R_refl. Qed.

Lemma keeps_code (h : HostContext) (a : bytes) : keeps R (code h a).
Proof. intros s. destruct (code_returns h a s) as [v ->]. apply R_refl. Qed.

Lemma keeps_codeSizeAt (h : HostContext) (a : bytes) : keeps R (codeSizeAt h a).
Proof. intros s. destruct (codeSizeAt_returns h a s) as [v ->]. apply R_refl. Qed.

Lemma keeps_codeHashAt (h : HostContext) (a : bytes) : keeps R (codeHashAt h a).
Proof. intros s. destruct (codeHashAt_returns h a s) as [v ->]. apply R_refl. Qed.

Lemma keeps_externalCall (exec : HostContext -> Task (EVMCResult * list LogEntry))
    (h : HostContext) (message : evmc_message) (m_logs : list LogEntry) :
  (forall hc, keeps R (exec hc)) -> keeps R (externalCall exec h message m_logs).
Proof.
  intros Hexec s. unfold externalCall.
  destruct (lookupPrecompiled message); [apply R_refl|].
  unfold co_await at 1. unfold incr_seq at 1.
  unfold co_await at 1.
  pose proof (R_dispatch s (messageWithSender h message)) as Hd.
  unfold HostContext_new at 1. cbn [m_rollbackableStorage m_seq constructed].
  destruct (getMyContractTable _ _ _ _) as [e|[t a]]; [exact Hd|].
  unfold co_await. specialize (Hexec
    {| m_blockHeader := m_blockHeader h; m_message := messageWithSender h message;
       m_origin := m_origin h; m_contextID := m_contextID h; m_myContractTable := t;
       m_codeTable := SYS_CODE_BINARY; m_abiTable := SYS_CONTRACT_ABI;
       m_newContractAddress := a |}
    {| m_rollbackableStorage := m_rollbackableStorage s; m_seq := m_seq s + 1;
       constructed := constructed s ++ [(messageWithSender h message, m_seq s + 1)] |}).
  destruct (exec _ _) as [[[r l]|e|] s3]; simpl in Hexec;
    try (simpl; exact (R_trans _ _ _ Hd Hexec)).
  destruct (_ && _); simpl; exact (R_trans _ _ _ Hd Hexec).
Qed.

Lemma keeps_run (exec : HostContext -> Task (EVMCResult * list LogEntry))
    (h : HostContext) (p : vm) :
  (forall hc, keeps R (exec hc)) -> forall m_logs, keeps R (run exec h p m_logs).
Proof.
  intros Hexec.
  induction p as [r|key k IH|key val k IH|a k IH|a k IH|a k IH|n k IH|t d k IH|m k IH];
    intros m_logs; simpl.
  - apply keeps_co_return.
  - apply keeps_co_await; [apply keeps_get | intros v; apply IH].
  - apply keeps_co_await; [apply keeps_storage_write | intros _; apply IH].
  - apply keeps_co_await; [apply keeps_code | intros v; apply IH].
  - apply keeps_co_await; [apply keeps_codeSizeAt | intros v; apply IH].
  - apply keeps_co_await; [apply keeps_codeHashAt | intros v; apply IH].
  - apply keeps_co_await; [apply keeps_throw | intros v; apply IH].
  - apply IH.
  - apply keeps_co_await; [apply keeps_externalCall, Hexec | intros [r l]; apply IH].
Qed.

Lemma keeps_execute (fuel : nat) (h : HostContext) : keeps R (execute fuel h).
Proof.
  revert h; induction fuel as [|fuel IH]; intros h.
  - intros s. apply R_refl.
  - simpl. unfold execute_with. destruct (_ || _).
    + unfold create.
      apply keeps_co_await; [intros s; apply R_refl | intros sp].
      apply keeps_co_await; [apply keeps_run, IH | intros [r l]].
      destruct (negb _).
      * apply keeps_co_await; [apply keeps_storage_rollback | intros _; apply keeps_co_return].
      * apply keeps_co_await; [apply keeps_setCode | intros _; apply keeps_co_return].
    + unfold call.
      apply keeps_co_await; [apply keeps_code | intros [entry|]]; [|apply keeps_throw].
      destruct (_ =? _)%nat; [apply keeps_throw|].
      apply keeps_co_await; [apply keeps_codeHashAt | intros ch].
      apply keeps_co_await; [intros s; apply R_refl | intros sp].
      apply keeps_co_await; [apply keeps_run, IH | intros [r l]].
      destruct (negb _); [|apply keeps_co_return].
      apply keeps_co_await; [apply keeps_storage_rollback | intros _; apply keeps_co_return].
Qed.

End Frame.

Section Numbering.
Context `{Collaborators}.

Lemma numbered_refl (s : State) : numbered s s.
Proof.
  split. exists []. rewrite app_nil_r. simpl.
  split; [reflexivity|]. split; [lia|]. intros i m q Hi. discriminate.
Qed.

Lemma numbered_trans (s1 s2 s3 : State) : numbered s1 s2 -> numbered s2 s3 -> numbered s1 s3.
Proof.
  intros [(b1 & Hc1 & Hq1 & Hn1)] [(b2 & Hc2 & Hq2 & Hn2)]. split.
  exists (b1 ++ b2). rewrite Hc2, Hc1, Hq2, Hq1, length_app, <- app_assoc.
  split; [reflexivity|]. split; [lia|].
  intros i m q Hi. apply lookup_app_Some in Hi as [Hi | [Hge Hi]].
  - now apply (Hn1 i m).
  - rewrite (Hn2 _ m q Hi), Hq1. lia.
Qed.

Lemma numbered_storage (s : State) (st : Storage.t) : numbered s (with_storage s st).
Proof.
  split. exists []. simpl. rewrite app_nil_r.
  split; [reflexivity|]. split; [lia|]. intros i m q Hi. discriminate.
Qed.

Lemma numbered_dispatch (s : State) (m : evmc_message) :
  numbered s {| m_rollbackableStorage := m_rollbackableStorage s;
                m_seq := m_seq s + 1;
                constructed := constructed s ++ [(m, m_seq s + 1)] |}.
Proof.
  split. exists [(m, m_seq s + 1)]. simpl.
  split; [reflexivity|]. split; [lia|].
  intros [|i] m' q Hi; simpl in Hi; [|discriminate].
  injection Hi as _ <-. lia.
Qed.

(** No decimal rendering of an integer contains the underscore. *)
Lemma pretty_N_go_underscore (x : N) (s : string) :
  StateKeyResolver.find "_" s = None ->
  StateKeyResolver.find "_" (pretty_N_go x s) = None.
Proof.
  revert s. induction (N.lt_wf_0 x) as [x _ IH]; intros s Hs.
  assert (x = 0 \/ 0 < x)%N as [->|Hx] by lia.
  - now rewrite pretty_N_go_0.
  - rewrite pretty_N_go_step by exact Hx. apply IH.
    + now apply N.div_lt.
    + unfold pretty_N_char.
      repeat case_match; simpl; now rewrite Hs.
Qed.

Lemma pretty_Z_underscore (z : Z) : StateKeyResolver.find "_" (pretty z) = None.
Proof.
  assert (HN : forall p : positive, StateKeyResolver.find "_" (pretty p) = None).
  { intros p. unfold pretty, pretty_positive, pretty, pretty_N.
    destruct (decide _); [reflexivity|]. now apply pretty_N_go_underscore. }
  destruct z as [|p|p]; unfold pretty, pretty_Z.
  - reflexivity.
  - apply HN.
  - change ("-" +:+ pretty p) with (String "-" (pretty p)). simpl. now rewrite HN.
Qed.

End Numbering.

(* ===================================================================== *)
(** * More properties of the host                                         *)
(* ===================================================================== *)

Section HostMore.
Context `{Collaborators}.

Lemma format_address_inj (n1 c1 q1 n2 c2 q2 : Z) :
  format_address n1 c1 q1 = format_address n2 c2 q2 -> (n1, c1, q1) = (n2, c2, q2).
Proof.
  intros E. unfold format_address in E.
  change ("_" +:+ pretty c1 +:+ "_" +:+ pretty q1)
    with (String "_" (pretty c1 +:+ "_" +:+ pretty q1)) in E.
  change ("_" +:+ pretty c2 +:+ "_" +:+ pretty q2)
    with (String "_" (pretty c2 +:+ "_" +:+ pretty q2)) in E.
  apply KeyCodecMore.first_split_unique in E as [En E]; try apply pretty_Z_underscore.
  change ("_" +:+ pretty q1) with (String "_" (pretty q1)) in E.
  change ("_" +:+ pretty q2) with (String "_" (pretty q2)) in E.
  apply KeyCodecMore.first_split_unique in E as [Ec Eq]; try apply pretty_Z_underscore.
  apply (inj pretty) in En, Ec, Eq. congruence.
Qed.

(** The string hashed into a new contract address determines the block
    number, the context id and the call sequence it was made from: two
    different triples never give the same string. *)
Theorem format_address_distinct (n1 c1 q1 n2 c2 q2 : Z) :
  (n1, c1, q1) <> (n2, c2, q2) ->
  format_address n1 c1 q1 <> format_address n2 c2 q2.
Proof. intros Hne E. apply Hne. now apply format_address_inj. Qed.

(** Whatever an execution does and however it ends, the hosts it
    constructs are handed consecutive counter values, starting one above
    the counter it began with, and the counter ends at the last of them:
    increments are never undone, not even by a rollback or an exception.
    So no two hosts of the tree see the same value, and no two creations
    hash the same string. *)
Theorem execute_numbers_hosts (fuel : nat) (h : HostContext) (s s' : State)
    (o : Outcome (EVMCResult * list LogEntry)) :
  execute fuel h s = (o, s') ->
  exists built : list (evmc_message * Z),
    constructed s' = constructed s ++ built /\
    m_seq s' = m_seq s + Z.of_nat (length built) /\
    (forall i m q, built !! i = Some (m, q) -> q = m_seq s + 1 + Z.of_nat i) /\
    (forall i j mi mj qi qj,
        built !! i = Some (mi, qi) -> built !! j = Some (mj, qj) -> i <> j ->
        qi <> qj /\
        format_address (number (m_blockHeader h)) (m_contextID h) qi
        <> format_address (number (m_blockHeader h)) (m_contextID h) qj).
Proof.
  intros E.
  pose proof (keeps_execute numbered numbered_refl numbered_trans numbered_storage
                numbered_dispatch fuel h s) as [(built & Hc & Hq & Hn)].
  rewrite E in Hc, Hq. simpl in Hc, Hq.
  exists built. split; [exact Hc|]. split; [exact Hq|]. split; [exact Hn|].
  intros i j mi mj qi qj Hi Hj Hij.
  assert (Hqq : qi <> qj).
  { rewrite (Hn i mi qi Hi), (Hn j mj qj Hj). lia. }
  split; [exact Hqq|]. intros Ef. apply format_address_inj in Ef. congruence.
Qed.

(** An execution that returns a status other than success leaves the
    storage it found. *)
Lemma execute_failure_storage (fuel : nat) (h : HostContext) (s s' : State)
    (result : EVMCResult) (m_logs : list LogEntry) :
  execute fuel h s = (Return (result, m_logs), s') ->
  status_code result <> 0 ->
  m_rollbackableStorage s' = m_rollbackableStorage s.
Proof.
  intros E Hfail.
  destruct fuel as [|fuel]; [discriminate|].
  simpl in E. unfold execute_with in E.
  destruct (_ || _).
  - rewrite create_unfold in E.
    pose proof (growing_run (execute fuel) h (create_vm h) (growing_execute fuel) [] s) as Hr.
    destruct (run _ _ _ _ _) as [[[r l]|e|] s1]; try discriminate. simpl in Hr.
    destruct (negb (status_code r =? 0)) eqn:Hs.
    + injection E as _ _ <-. apply (rollback_restores s s1 Hr).
    + unfold setCode1 in E. rewrite setCode_effect in E. injection E as <- _ _.
      simpl in Hfail. apply negb_false_iff, Z.eqb_eq in Hs. contradiction.
  - destruct (Storage.read (getTableNameID (code_address (m_message h)), ACCOUNT_CODE_HASH)
                (m_rollbackableStorage s)) as [ch|] eqn:Hh.
    2:{ unfold call, co_await, code, co_await, storage_read in E. rewrite Hh in E.
        discriminate. }
    destruct (Storage.read (m_codeTable h, ch) (m_rollbackableStorage s)) as [c|] eqn:Hc.
    2:{ unfold call, co_await, code, co_await, storage_read in E. rewrite Hh, Hc in E.
        discriminate. }
    destruct c as [|c0 c].
    { unfold call, co_await, code, co_await, storage_read in E. rewrite Hh, Hc in E.
      discriminate. }
    rewrite (call_unfold _ h [] s ch (String c0 c) Hh Hc) in E by discriminate.
    pose proof (growing_run (execute fuel) h (call_vm h ch (String c0 c))
                  (growing_execute fuel) [] s) as Hr.
    destruct (run _ _ _ _ _) as [[[r l]|e|] s1]; try discriminate. simpl in Hr.
    destruct (negb (status_code r =? 0)) eqn:Hs.
    + injection E as _ _ <-. apply (rollback_restores s s1 Hr).
    + injection E as -> _ _.
      apply negb_false_iff, Z.eqb_eq in Hs. contradiction.
Qed.

(** Whatever an execution does and however it ends, the write history it
    leaves extends the one it found: a savepoint the caller took before
    is still good afterwards, and rolling back to it restores the
    caller's storage exactly. When the execution returns a status other
    than success, the storage is the one it found. *)
Theorem execute_extends_history (fuel : nat) (h : HostContext) (s s' : State)
    (o : Outcome (EVMCResult * list LogEntry)) :
  execute fuel h s = (o, s') ->
  (exists ext, m_rollbackableStorage s' = ext ++ m_rollbackableStorage s) /\
  Storage.rollback (Storage.current (m_rollbackableStorage s)) (m_rollbackableStorage s')
    = m_rollbackableStorage s /\
  (forall result m_logs,
      o = Return (result, m_logs) -> status_code result <> 0 ->
      m_rollbackableStorage s' = m_rollbackableStorage s).
Proof.
  intros E.
  pose proof (growing_execute fuel h s) as Hg. rewrite E in Hg. simpl in Hg.
  split; [exact (grows_storage _ _ Hg)|].
  split; [exact (rollback_restores s s' Hg)|].
  intros result m_logs -> Hfail.
  exact (execute_failure_storage fuel h s s' result m_logs E Hfail).
Qed.

(** A nested host that fails is invisible to its caller, apart from the
    counter: when [externalCall] dispatches the message to a nested host
    (no precompiled handler answers it) and that host returns a status
    other than success, the storage is exactly the storage at the
    dispatch (the caller's own earlier writes included), the caller's
    log list is unchanged, and the counter has advanced. *)
Theorem failed_nested_call_leaves_caller (fuel : nat) (h : HostContext)
    (message : evmc_message) (m_logs m_logs' : list LogEntry) (s s' : State)
    (result : EVMCResult) :
  lookupPrecompiled message = None ->
  externalCall (execute fuel) h message m_logs s = (Return (result, m_logs'), s') ->
  status_code result <> 0 ->
  m_rollbackableStorage s' = m_rollbackableStorage s /\
  m_logs' = m_logs /\
  m_seq s < m_seq s'.
Proof.
  intros Hnone E Hfail.
  unfold externalCall in E. rewrite Hnone in E.
  unfold co_await at 1 in E. unfold incr_seq at 1 in E.
  unfold co_await at 1 in E.
  match type of E with
  | context [HostContext_new ?a ?b ?c ?d ?st] =>
      pose proof (HostContext_new_state a b c d st) as Hnew;
      destruct (HostContext_new a b c d st) as [[hc|e|] s2]
  end; try discriminate.
  simpl in Hnew. destruct Hnew as (Hst & Hq & _).
  unfold co_await in E.
  pose proof (growing_execute fuel hc s2) as Hg.
  destruct (execute fuel hc s2) as [[[r l]|e|] s3] eqn:Eexec; try discriminate.
  assert (Hr : r = result /\ s3 = s').
  { destruct (_ && _); injection E as -> _ ->; auto. }
  destruct Hr as [-> ->]. simpl in Hg.
  apply Z.eqb_neq in Hfail. unfold EVMC_SUCCESS in E. rewrite Hfail in E. simpl in E.
  injection E as <-.
  split; [|split; [reflexivity|]].
  - rewrite <- Hst. apply Z.eqb_neq in Hfail.
    exact (execute_failure_storage fuel hc s2 s' result l Eexec Hfail).
  - destruct Hg as [_ (built & _ & ->)]. lia.
Qed.

(** A host only ever appends to its log list: whatever the interpreter
    and the nested hosts do, the list the run returns starts with the
    entries the host already held, in their order. *)
Theorem run_appends_logs (exec : HostContext -> Task (EVMCResult * list LogEntry))
    (h : HostContext) (p : vm) (m_logs m_logs' : list LogEntry) (s s' : State)
    (result : EVMCResult) :
  run exec h p m_logs s = (Return (result, m_logs'), s') ->
  exists added, m_logs' = m_logs ++ added.
Proof.
  revert m_logs s.
  induction p as [r|key k IH|key val k IH|a k IH|a k IH|a k IH|n k IH|t d k IH|m k IH];
    intros m_logs s; simpl.
  - intros [= _ <- _]. exists []. now rewrite app_nil_r.
  - unfold co_await. destruct (get_returns h key s) as [v ->]. apply IH.
  - unfold co_await. simpl. apply IH.
  - unfold co_await. destruct (code_returns h a s) as [v ->]. apply IH.
  - unfold co_await. destruct (codeSizeAt_returns h a s) as [v ->]. apply IH.
  - unfold co_await. destruct (codeHashAt_returns h a s) as [v ->]. apply IH.
  - unfold co_await. simpl. discriminate.
  - intros E. destruct (IH _ _ E) as [added ->].
    unfold log. rewrite <- app_assoc. eauto.
  - unfold co_await at 1.
    destruct (externalCall exec h m m_logs s) as [[[r l1]|e|] s1] eqn:Ecall;
      try discriminate.
    intros E. destruct (IH r l1 s1 E) as [added ->].
    assert (Hl1 : exists a1, l1 = m_logs ++ a1).
    { unfold externalCall in Ecall.
      destruct (lookupPrecompiled m).
      - injection Ecall as _ <- _. exists []. now rewrite app_nil_r.
      - unfold co_await at 1 in Ecall. unfold incr_seq at 1 in Ecall.
        unfold co_await at 1 in Ecall.
        destruct (HostContext_new _ _ _ _ _) as [[hc|e|] s2]; try discriminate.
        unfold co_await in Ecall.
        destruct (exec hc s2) as [[[r2 l2]|e|] s3]; try discriminate.
        destruct (_ && _); injection Ecall as _ <- _.
        + eauto.
        + exists []. now rewrite app_nil_r. }
    destruct Hl1 as [a1 ->]. rewrite <- app_assoc. eauto.
Qed.

Lemma getTableNameID_inj (a b : bytes) : getTableNameID a = getTableNameID b -> a = b.
Proof.
  unfold getTableNameID. induction USER_APPS_PREFIX as [|c p IH]; [trivial|].
  intros E. apply IH.
  change (String c (p +:+ a) = String c (p +:+ b)) in E. now injection E.
Qed.

Lemma substring_0_short (n : nat) (v : string) :
  (String.length v <= n)%nat -> String.substring 0 n v = v.
Proof.
  revert n. induction v as [|c v IH]; intros [|n] Hn; simpl in *; try reflexivity; try lia.
  rewrite IH by lia. reflexivity.
Qed.

Lemma get_eq (h : HostContext) (key : bytes) (s : State) :
  get h key s =
    (Return (match Storage.read (m_myContractTable h, key) (m_rollbackableStorage s) with
             | Some entry => String.substring 0 32 entry
             | None => zero_bytes 32
             end), s).
Proof. unfold get, co_await, storage_read. destruct (Storage.read _ _); reflexivity. Qed.

(** A slot reads back what was last stored in it (its first 32 bytes, so
    all of a 32-byte word); storing into one slot leaves every other slot
    of the contract, and every slot of a contract at another address, as
    it was. A slot that holds nothing reads as 32 zero bytes. *)
Theorem get_after_set (h h' : HostContext) (a a' key key' val : bytes) (s : State) :
  m_myContractTable h = getTableNameID a ->
  m_myContractTable h' = getTableNameID a' ->
  let s1 := (set h key val s).2 in
  get h key s1 = (Return (String.substring 0 32 val), s1) /\
  (String.length val = 32%nat -> get h key s1 = (Return val, s1)) /\
  (key' <> key -> (get h key' s1).1 = (get h key' s).1) /\
  (a' <> a -> (get h' key' s1).1 = (get h' key' s).1) /\
  (Storage.read (m_myContractTable h, key') (m_rollbackableStorage s) = None ->
   get h key' s = (Return (zero_bytes 32), s)).
Proof.
  intros Ht Ht' s1.
  assert (Hst : m_rollbackableStorage s1
                = Storage.write (m_myContractTable h, key) val (m_rollbackableStorage s))
    by reflexivity.
  assert (Hget : get h key s1 = (Return (String.substring 0 32 val), s1)).
  { rewrite get_eq, Hst, StorageFacts.read_write_eq. reflexivity. }
  split; [exact Hget|]. split; [|split; [|split]].
  - intros Hlen. rewrite Hget, substring_0_short by lia. reflexivity.
  - intros Hne. rewrite !get_eq, Hst, StorageFacts.read_write_ne by congruence.
    reflexivity.
  - intros Hne. rewrite !get_eq, Hst, StorageFacts.read_write_ne; [reflexivity|].
    rewrite Ht, Ht'. intros [= E _]. apply Hne. symmetry. now apply getTableNameID_inj.
  - intros Hnone. rewrite get_eq, Hnone. reflexivity.
Qed.

(** After the code storage procedure has run for a contract, the
    accessors agree on it, for every host over the same code table: the
    code of the contract's address is the entry under the hash (the
    stored bytes, unless other bytes were already stored under that
    hash), its size is the length of that entry, and its code hash is
    the hash that was written. *)
Theorem accessors_after_setCode (h h2 : HostContext) (address bytecode : bytes) (s : State) :
  m_myContractTable h = getTableNameID address ->
  m_myContractTable h <> m_codeTable h ->
  m_codeTable h2 = m_codeTable h ->
  let s1 := (setCode1 h bytecode s).2 in
  let entry := default bytecode
                 (Storage.read (m_codeTable h, hash bytecode) (m_rollbackableStorage s)) in
  code h2 address s1 = (Return (Some entry), s1) /\
  codeSizeAt h2 address s1 = (Return (String.length entry), s1) /\
  codeHashAt h2 address s1 = (Return (h256_of (hash bytecode)), s1).
Proof.
  intros Ht Hne Hct s1 entry.
  assert (Hst : m_rollbackableStorage s1
                = stored_code h (hash bytecode) bytecode (m_rollbackableStorage s)).
  { unfold s1, setCode1. rewrite setCode_effect. reflexivity. }
  assert (Hh : Storage.read (getTableNameID address, ACCOUNT_CODE_HASH)
                 (m_rollbackableStorage s1) = Some (hash bytecode)).
  { rewrite Hst, <- Ht. apply read_stored_code_hash. }
  assert (Hc : Storage.read (m_codeTable h2, hash bytecode) (m_rollbackableStorage s1)
               = Some entry).
  { rewrite Hst, Hct. now apply read_stored_code. }
  assert (Hcode : code h2 address s1 = (Return (Some entry), s1)).
  { unfold code, co_await, storage_read. rewrite Hh. cbv beta iota. rewrite Hc.
    reflexivity. }
  split; [exact Hcode|]. split.
  - unfold codeSizeAt. unfold co_await at 1. rewrite Hcode. reflexivity.
  - unfold codeHashAt, co_await, storage_read. rewrite Hh. reflexivity.
Qed.



(** CREATE2 is refused in the constructor. A nested CREATE2 that no
    precompiled handler answers is dispatched all the same: the counter
    is incremented, the constructor of the nested host throws
    "Unimplement", and [externalCall] throws with the counter left
    incremented and the storage untouched. *)
Theorem nested_create2_throws (exec : HostContext -> Task (EVMCResult * list LogEntry))
    (h : HostContext) (message : evmc_message) (m_logs : list LogEntry) (s : State) :
  kind message = EVMC_CREATE2 ->
  (forall blockHeader origin contextID,
      HostContext_new blockHeader message origin contextID s
        = (Throw (runtime_error "Unimplement"),
           {| m_rollbackableStorage := m_rollbackableStorage s; m_seq := m_seq s;
              constructed := constructed s ++ [(message, m_seq s)] |})) /\
  (lookupPrecompiled message = None ->
   externalCall exec h message m_logs s
     = (Throw (runtime_error "Unimplement"),
        {| m_rollbackableStorage := m_rollbackableStorage s; m_seq := m_seq s + 1;
           constructed := constructed s ++ [(message, m_seq s + 1)] |})).
Proof.
  intros Hk. split.
  - intros bh origin c. unfold HostContext_new, getMyContractTable. rewrite Hk. reflexivity.
  - intros Hpre. unfold externalCall. rewrite Hpre.
    assert (Hm : messageWithSender h message = message).
    { unfold messageWithSender. rewrite Hk. reflexivity. }
    rewrite Hm. unfold co_await, incr_seq, HostContext_new, getMyContractTable.
    rewrite Hk. reflexivity.
Qed.

(** Nothing catches an exception. When the interpreter run of a host
    ends in an exception, [create] and [call] end in the same exception
    and in the state of the throw: no rollback to the savepoint, no code
    stored. When a nested host's [execute] ends in an exception, so does
    the dispatching [externalCall], and with it the dispatching host's
    run, whatever the interpreter would have done with an answer. *)
Theorem exception_unwinds (exec : HostContext -> Task (EVMCResult * list LogEntry))
    (h : HostContext) (m_logs : list LogEntry) (s s1 : State) (e : Exception) :
  (run exec h (create_vm h) m_logs s = (Throw e, s1) ->
   create exec h m_logs s = (Throw e, s1)) /\
  (forall codeHashEntry codeEntry,
      Storage.read (getTableNameID (code_address (m_message h)), ACCOUNT_CODE_HASH)
        (m_rollbackableStorage s) = Some codeHashEntry ->
      Storage.read (m_codeTable h, codeHashEntry) (m_rollbackableStorage s) = Some codeEntry ->
      codeEntry <> EmptyString ->
      run exec h (call_vm h codeHashEntry codeEntry) m_logs s = (Throw e, s1) ->
      call exec h m_logs s = (Throw e, s1)) /\
  (forall message hostcontext s0 (k : EVMCResult -> vm),
      lookupPrecompiled message = None ->
      HostContext_new (m_blockHeader h) (messageWithSender h message) (m_origin h)
        (m_contextID h) (incr_seq s).2 = (Return hostcontext, s0) ->
      exec hostcontext s0 = (Throw e, s1) ->
      externalCall exec h message m_logs s = (Throw e, s1) /\
      run exec h (vm_externalCall message k) m_logs s = (Throw e, s1)).
Proof.
  split; [|split].
  - intros Hrun. rewrite create_unfold, Hrun. reflexivity.
  - intros ch ce Hh Hc Hne Hrun.
    rewrite (call_unfold exec h m_logs s ch ce Hh Hc Hne), Hrun. reflexivity.
  - intros message hc s0 k Hpre Hnew Hexec.
    assert (Hcall : externalCall exec h message m_logs s = (Throw e, s1)).
    { unfold externalCall. rewrite Hpre.
      unfold co_await at 1. unfold incr_seq at 1. simpl in Hnew.
      unfold co_await at 1. rewrite Hnew.
      unfold co_await at 1. rewrite Hexec. reflexivity. }
    split; [exact Hcall|]. simpl. unfold co_await at 1. rewrite Hcall. reflexivity.
Qed.

End HostMore.

(* ===================================================================== *)
(** * The further properties at work in the second concrete world          *)
(* ===================================================================== *)

Module RunMore.
Import Demo.

#[local] Existing Instance Demo2.collaborators.

(** Block 1 with context 11 and block 11 with context 1 hash different
    strings, thanks to the underscores. *)
Lemma format_address_distinct_witness :
  format_address 1 11 0 = "1_11_0" /\
  format_address 11 1 0 = "11_1_0" /\
  format_address 1 11 0 <> format_address 11 1 0.
Proof.
  split; [reflexivity|]. split; [reflexivity|].
  apply (format_address_distinct 1 11 0 11 1 0). discriminate.
Defined.

(** A creation that dispatches a creation that reverts and then one that
    succeeds: the two nested hosts are handed the counter values 1 and 2,
    although the first one's storage writes were rolled back. *)
Lemma execute_numbers_hosts_witness :
  let s := state [] 0 in
  let h := Demo2.host (message EVMC_CREATE origin EMPTY_ADDRESS "spawn-twice") s in
  map (fun c => (input_data c.1, c.2)) (constructed (execute 2 h s).2)
    = [("revert", 1); ("deploy", 2)] /\
  m_seq (execute 2 h s).2 = 2 /\
  format_address (number (m_blockHeader h)) (m_contextID h) 1
  <> format_address (number (m_blockHeader h)) (m_contextID h) 2.
Proof.
  intros s h.
  assert (Hc : map (fun c => (input_data c.1, c.2)) (constructed (execute 2 h s).2)
               = [("revert", 1); ("deploy", 2)]) by (vm_compute; reflexivity).
  assert (Hq : m_seq (execute 2 h s).2 = 2) by (vm_compute; reflexivity).
  split; [exact Hc|]. split; [exact Hq|].
  destruct (execute 2 h s) as [o s'] eqn:E.
  destruct (execute_numbers_hosts 2 h s s' o E) as (built & Hb & _ & _ & Hdist).
  simpl in Hb, Hc. rewrite Hb in Hc.
  destruct built as [|[m1 q1] [|[m2 q2] [|]]]; try discriminate Hc.
  injection Hc as _ -> _ ->.
  exact (proj2 (Hdist 0%nat 1%nat m1 m2 1 2 eq_refl eq_refl ltac:(discriminate))).
Defined.

(** A call to a contract whose code writes a slot and reverts, over a
    storage that already holds the contract: the storage afterwards is
    the storage before. *)
Lemma execute_extends_history_witness :
  let st := deployed (contract "a") "revert" in
  let s := state st 0 in
  let h := Demo2.host (message EVMC_CALL origin (contract "a") "") s in
  exists l s',
    execute 1 h s = (Return (reverted, l), s') /\
    m_rollbackableStorage s' = st /\
    Storage.rollback (Storage.current st) (m_rollbackableStorage s') = st.
Proof.
  intros st s h.
  assert (Hex : exists l s', execute 1 h s = (Return (reverted, l), s')).
  { eexists _, _. vm_compute. reflexivity. }
  destruct Hex as (l & s' & E).
  destruct (execute_extends_history 1 h s s' _ E) as (_ & Hroll & Hfail).
  exists l, s'. split; [exact E|]. split; [|exact Hroll].
  apply (Hfail reverted l eq_refl). discriminate.
Defined.

(** A nested creation that writes, logs and reverts, dispatched by a
    host that holds a log entry and a storage with a contract in it. *)
Lemma failed_nested_call_leaves_caller_witness :
  let st := deployed (contract "a") "spawn" in
  let s := state st 5 in
  let h := Demo2.host (message EVMC_CALL origin (contract "a") "") s in
  let nested := message EVMC_CREATE (contract "a") EMPTY_ADDRESS "revert" in
  let mine := {| log_address := ""; log_topics := ["mine"]; log_data := "" |} in
  lookupPrecompiled nested = None /\
  exists s',
    externalCall (execute 1) h nested [mine] s = (Return (reverted, [mine]), s') /\
    m_rollbackableStorage s' = st /\
    m_seq s' = 6.
Proof.
  intros st s h nested mine.
  split; [reflexivity|].
  assert (Hex : exists l s',
             externalCall (execute 1) h nested [mine] s = (Return (reverted, l), s') /\
             m_seq s' = 6).
  { eexists _, _. split; vm_compute; reflexivity. }
  destruct Hex as (l & s' & E & Hq).
  destruct (failed_nested_call_leaves_caller 1 h nested [mine] l s s' reverted
              eq_refl E ltac:(discriminate)) as (Hst & -> & _).
  exists s'. split; [exact E|]. split; [exact Hst | exact Hq].
Defined.

(** A run that logs once, started with one entry in the list. *)
Lemma run_appends_logs_witness :
  let s := state [] 0 in
  let h := Demo2.host (message EVMC_CREATE origin EMPTY_ADDRESS "deploy") s in
  let mine := {| log_address := ""; log_topics := ["mine"]; log_data := "" |} in
  exists result added s',
    run (execute 1) h (create_vm h) [mine] s = (Return (result, [mine] ++ added), s') /\
    length added = 1%nat.
Proof.
  intros s h mine.
  assert (Hex : exists r l s',
             run (execute 1) h (create_vm h) [mine] s = (Return (r, l), s') /\
             length l = 2%nat).
  { eexists _, _, _. split; vm_compute; reflexivity. }
  destruct Hex as (r & l & s' & E & Hlen).
  destruct (run_appends_logs (execute 1) h (create_vm h) [mine] l s s' r E) as [added ->].
  exists r, added, s'. split; [exact E|].
  rewrite length_app in Hlen. simpl in Hlen. lia.
Defined.

(** Two contracts and a 32-byte word. *)
Lemma get_after_set_witness :
  let s := state [] 0 in
  let h := Demo2.host (message EVMC_CALL origin (contract "a") "") s in
  let h' := Demo2.host (message EVMC_CALL origin (contract "b") "") s in
  let word := zero_bytes 31 +:+ "7" in
  let s1 := (set h "slot" word s).2 in
  get h "slot" s1 = (Return word, s1) /\
  (get h "other" s1).1 = Return (zero_bytes 32) /\
  (get h' "slot" s1).1 = Return (zero_bytes 32).
Proof.
  intros s h h' word s1.
  destruct (get_after_set h h' (contract "a") (contract "b") "slot" "other" word s
              eq_refl eq_refl) as (_ & Hword & Hother & _ & _).
  destruct (get_after_set h h' (contract "a") (contract "b") "slot" "slot" word s
              eq_refl eq_refl) as (_ & _ & _ & Hcontract & _).
  split; [apply Hword; reflexivity|].
  split.
  - exact (eq_trans (Hother ltac:(discriminate)) eq_refl).
  - exact (eq_trans (Hcontract ltac:(vm_compute; discriminate)) eq_refl).
Defined.

(** The code "runtime" stored for the contract created at sequence 0, as
    seen by a host built for a call to it. *)
Lemma accessors_after_setCode_witness :
  let s := state [] 0 in
  let h := Demo2.host (message EVMC_CREATE origin EMPTY_ADDRESS "deploy") s in
  let address := m_newContractAddress h in
  let h2 := Demo2.host (message EVMC_CALL origin address "") s in
  let s1 := (setCode1 h "runtime" s).2 in
  code h2 address s1 = (Return (Some "runtime"), s1) /\
  codeSizeAt h2 address s1 = (Return 7%nat, s1) /\
  codeHashAt h2 address s1 = (Return (pad32 "runtime"), s1).
Proof.
  intros s h address h2 s1.
  exact (accessors_after_setCode h h2 address "runtime" s eq_refl
           ltac:(vm_compute; discriminate) eq_refl).
Defined.


(** A host that wrote a slot dispatches a CREATE2. *)
Lemma nested_create2_throws_witness :
  let s := state [] 7 in
  let h := Demo2.host (message EVMC_CREATE origin EMPTY_ADDRESS "spawn-create2") s in
  let nested := message EVMC_CREATE2 EMPTY_ADDRESS EMPTY_ADDRESS "deploy" in
  externalCall (execute 1) h nested [] s
    = (Throw (runtime_error "Unimplement"),
       {| m_rollbackableStorage := []; m_seq := 8; constructed := [(nested, 8)] |}).
Proof.
  intros s h nested.
  destruct (nested_create2_throws (execute 1) h nested [] s eq_refl) as [_ Hcall].
  exact (Hcall eq_refl).
Defined.

(** A creation whose code writes a slot and then asks for a block hash:
    the exception leaves [create] as it left the run, the written slot
    still in the storage. *)
Lemma exception_unwinds_witness :
  let s := state [] 0 in
  let h := Demo2.host (message EVMC_CREATE origin EMPTY_ADDRESS "write-blockhash") s in
  exists s1,
    create (execute 1) h [] s = (Throw (runtime_error "Unsupported method!"), s1) /\
    m_rollbackableStorage s1 = [((m_myContractTable h, "slot"), "value")].
Proof.
  intros s h.
  assert (Hrun : exists s1,
             run (execute 1) h (create_vm h) [] s
               = (Throw (runtime_error "Unsupported method!"), s1) /\
             m_rollbackableStorage s1 = [((m_myContractTable h, "slot"), "value")]).
  { eexists. split; vm_compute; reflexivity. }
  destruct Hrun as (s1 & Hrun & Hst).
  destruct (exception_unwinds (execute 1) h [] s s1 (runtime_error "Unsupported method!"))
    as (Hcreate & _ & _).
  exists s1. split; [exact (Hcreate Hrun) | exact Hst].
Defined.

End RunMore.

(* ===================================================================== *)
(** * Which addresses can be answered by a precompiled handler             *)
(* ===================================================================== *)

Section PrecompiledRange.
Context `{Collaborators}.

Lemma fold_bigEndian_acc (l : list ascii) (acc : Z) :
  fold_left (fun acc c => acc * 256 + Z.of_nat (nat_of_ascii c)) l acc
  = acc * 256 ^ Z.of_nat (length l)
    + fold_left (fun acc c => acc * 256 + Z.of_nat (nat_of_ascii c)) l 0.
Proof.
  revert acc. induction l as [|c l IH]; intros acc.
  - simpl. lia.
  - cbn [fold_left length]. rewrite IH, (IH (0 * 256 + _)).
    rewrite Nat2Z.inj_succ, Z.pow_succ_r by lia. lia.
Qed.

Lemma fromBigEndian_cons (c : ascii) (b : bytes) :
  fromBigEndian (String c b)
  = Z.of_nat (nat_of_ascii c) * 256 ^ Z.of_nat (String.length b) + fromBigEndian b.
Proof.
  assert (Hlen : length (list_ascii_of_string b) = String.length b).
  { clear. induction b as [|a b IH]; simpl; [reflexivity | now rewrite IH]. }
  unfold fromBigEndian. cbn [list_ascii_of_string fold_left].
  rewrite fold_bigEndian_acc, Hlen. lia.
Qed.

Lemma fromBigEndian_nonneg (b : bytes) : 0 <= fromBigEndian b.
Proof.
  induction b as [|c b IH]; [unfold fromBigEndian; simpl; lia|].
  rewrite fromBigEndian_cons.
  assert (0 < 256 ^ Z.of_nat (String.length b)) by (apply Z.pow_pos_nonneg; lia).
  nia.
Qed.

Lemma fromBigEndian_app (hi lo : bytes) :
  fromBigEndian (hi +:+ lo)
  = fromBigEndian hi * 256 ^ Z.of_nat (String.length lo) + fromBigEndian lo.
Proof.
  induction hi as [|c hi IH].
  - change (EmptyString +:+ lo) with lo. unfold fromBigEndian at 2. simpl. lia.
  - change (String c hi +:+ lo) with (String c (hi +:+ lo)).
    rewrite !fromBigEndian_cons, IH, StateKeyResolverFacts.length_app.
    rewrite Nat2Z.inj_add, Z.pow_add_r by lia. lia.
Qed.

Lemma fromBigEndian_zero_bytes (n : nat) : fromBigEndian (zero_bytes n) = 0.
Proof.
  induction n as [|n IH]; [reflexivity|].
  cbn [zero_bytes]. rewrite fromBigEndian_cons, IH. reflexivity.
Qed.

Lemma fromBigEndian_pos (b : bytes) (i : nat) (c : ascii) :
  String.get i b = Some c -> c <> Ascii.zero -> 0 < fromBigEndian b.
Proof.
  revert i. induction b as [|a b IH]; intros i Hi Hc; [destruct i; discriminate|].
  rewrite fromBigEndian_cons.
  assert (Hp : 0 < 256 ^ Z.of_nat (String.length b)) by (apply Z.pow_pos_nonneg; lia).
  destruct i as [|i]; simpl in Hi.
  - injection Hi as ->.
    assert (nat_of_ascii c <> 0%nat).
    { intros E. apply Hc. rewrite <- (ascii_nat_embedding c), E. reflexivity. }
    pose proof (fromBigEndian_nonneg b). nia.
  - specialize (IH i Hi Hc). nia.
Qed.

(** The registry is consulted for the addresses 1 to 99999 only. The
    all-zero address is never answered by a handler, and neither is an
    address with a non-zero byte anywhere before its last three bytes,
    whatever the registry holds; a handler that is found is the one
    registered under the number of the address. *)
Theorem precompiled_lookup_range (message : evmc_message) :
  (forall n, code_address message = zero_bytes n -> lookupPrecompiled message = None) /\
  (forall hi lo i c,
      code_address message = hi +:+ lo -> String.length lo = 3%nat ->
      String.get i hi = Some c -> c <> Ascii.zero ->
      lookupPrecompiled message = None) /\
  (forall precompiled,
      lookupPrecompiled message = Some precompiled ->
      0 < fromBigEndian (code_address message) < MAX_PRECOMPILED_ADDRESS /\
      getPrecompiled (fromBigEndian (code_address message)) = Some precompiled).
Proof.
  split; [|split].
  - intros n E. unfold lookupPrecompiled. rewrite E, fromBigEndian_zero_bytes. reflexivity.
  - intros hi lo i c E Hlen Hi Hc. unfold lookupPrecompiled.
    rewrite E, fromBigEndian_app, Hlen.
    pose proof (fromBigEndian_pos hi i c Hi Hc) as Hhi.
    pose proof (fromBigEndian_nonneg lo) as Hlo.
    replace (_ <? MAX_PRECOMPILED_ADDRESS) with false; [now rewrite andb_false_r|].
    symmetry. apply Z.ltb_ge. unfold MAX_PRECOMPILED_ADDRESS.
    change (256 ^ Z.of_nat 3) with 16777216. lia.
  - intros p. unfold lookupPrecompiled.
    destruct (0 <? _) eqn:Hlo; [|discriminate].
    destruct (_ <? MAX_PRECOMPILED_ADDRESS) eqn:Hhi; [|discriminate].
    simpl. intros Hp. apply Z.ltb_lt in Hlo, Hhi. auto.
Qed.

(** Without a code hash entry for an address, the accessors give the
    empty answers: no code, size 0, the all-zero hash. With a code hash
    entry that has no entry in the code table, there is still no code and
    the size is 0, but the code hash accessor reports the dangling
    hash. *)
Theorem accessors_without_code (h : HostContext) (address : bytes) (s : State) :
  (Storage.read (getTableNameID address, ACCOUNT_CODE_HASH) (m_rollbackableStorage s) = None ->
   code h address s = (Return None, s) /\
   codeSizeAt h address s = (Return 0%nat, s) /\
   codeHashAt h address s = (Return (zero_bytes 32), s)) /\
  (forall codeHashEntry,
      Storage.read (getTableNameID address, ACCOUNT_CODE_HASH) (m_rollbackableStorage s)
        = Some codeHashEntry ->
      Storage.read (m_codeTable h, codeHashEntry) (m_rollbackableStorage s) = None ->
      code h address s = (Return None, s) /\
      codeSizeAt h address s = (Return 0%nat, s) /\
      codeHashAt h address s = (Return (h256_of codeHashEntry), s)).
Proof.
  split.
  - intros Hh.
    assert (Hcode : code h address s = (Return None, s)).
    { unfold code, co_await, storage_read. rewrite Hh. reflexivity. }
    split; [exact Hcode|]. split.
    + unfold codeSizeAt. unfold co_await at 1. rewrite Hcode. reflexivity.
    + unfold codeHashAt, co_await, storage_read. rewrite Hh. reflexivity.
  - intros ch Hh Hc.
    assert (Hcode : code h address s = (Return None, s)).
    { unfold code, co_await, storage_read. rewrite Hh. cbv beta iota. rewrite Hc.
      reflexivity. }
    split; [exact Hcode|]. split.
    + unfold codeSizeAt. unfold co_await at 1. rewrite Hcode. reflexivity.
    + unfold codeHashAt, co_await, storage_read. rewrite Hh. reflexivity.
Qed.

End PrecompiledRange.

Module RunLookup.
Import Demo.

#[local] Existing Instance Demo2.collaborators.

(** The zero address, a 20-byte address of letters, and address 1, with a
    registry that would answer for every number below 10. *)
Lemma precompiled_lookup_range_witness :
  lookupPrecompiled (message EVMC_CALL origin EMPTY_ADDRESS "") = None /\
  lookupPrecompiled (message EVMC_CALL origin (contract "a") "") = None /\
  lookupPrecompiled (message EVMC_CALL origin one "") = Some handler /\
  getPrecompiled (fromBigEndian one) = Some handler.
Proof.
  destruct (precompiled_lookup_range (message EVMC_CALL origin EMPTY_ADDRESS ""))
    as (Hzero & _ & _).
  destruct (precompiled_lookup_range (message EVMC_CALL origin (contract "a") ""))
    as (_ & Hhigh & _).
  destruct (precompiled_lookup_range (message EVMC_CALL origin one ""))
    as (_ & _ & Hfound).
  split; [exact (Hzero 20%nat eq_refl)|].
  split.
  { apply (Hhigh (String.string_of_list_ascii (replicate 17 "a"%char)) "aaa" 0%nat "a"%char);
      [reflexivity | reflexivity | reflexivity | discriminate]. }
  assert (Hone : lookupPrecompiled (message EVMC_CALL origin one "") = Some handler)
    by reflexivity.
  split; [exact Hone | exact (proj2 (Hfound handler Hone))].
Defined.

(** A storage whose code hash entry for the contract points at nothing. *)
Lemma accessors_without_code_witness :
  let st := [ (("/apps/" +:+ contract "a", "codeHash"), pad32 "gone") ] in
  let s := state st 0 in
  let h := Demo2.host (message EVMC_CALL origin (contract "a") "") s in
  code h (contract "a") s = (Return None, s) /\
  codeSizeAt h (contract "a") s = (Return 0%nat, s) /\
  codeHashAt h (contract "a") s = (Return (pad32 (pad32 "gone")), s) /\
  code h (contract "b") s = (Return None, s) /\
  codeHashAt h (contract "b") s = (Return (zero_bytes 32), s).
Proof.
  intros st s h.
  destruct (accessors_without_code h (contract "a") s) as [_ Hdangling].
  destruct (accessors_without_code h (contract "b") s) as [Habsent _].
  destruct (Hdangling (pad32 "gone") eq_refl eq_refl) as (Hc & Hs & Hh).
  destruct (Habsent eq_refl) as (Hc' & _ & Hh').
  repeat split; assumption.
Defined.

End RunLookup.

(* ===================================================================== *)
(** * Empty tables and keys                                               *)
(* ===================================================================== *)

Module KeyCodecEdge.
Import StateKeyResolver StateKeyResolverFacts.

(** [encode] takes any pair, an empty table or an empty key included.
    The flat key of a pair with an empty table is rejected by [decode]
    with [InvalidStateKey], whatever the key. The flat key of a pair
    with an empty key is rejected exactly when the table contains no
    separator or starts with one; for every other table [decode] returns
    a pair: the part of the table before its first separator, and the
    rest of the table followed by a separator. The flat key of the empty
    pair is the separator alone. *)
Theorem encode_of_empty_is_rejected (table key : string) :
  decode (encode (EmptyString, key)) = inl InvalidStateKey /\
  (decode (encode (table, EmptyString)) = inl InvalidStateKey <->
   ~ has_split table \/ exists rest, table = String TABLE_KEY_SPLIT rest) /\
  (decode (encode (table, EmptyString)) = inl InvalidStateKey \/
   exists t1 t2,
     table = t1 +:+ String TABLE_KEY_SPLIT t2 /\ ~ has_split t1 /\
     decode (encode (table, EmptyString))
       = inr (t1, t2 +:+ String TABLE_KEY_SPLIT EmptyString)) /\
  encode (EmptyString, EmptyString) = String TABLE_KEY_SPLIT EmptyString.
Proof.
  split; [|split; [|split; [|reflexivity]]].
  - rewrite encode_eq. apply (decode_split EmptyString key). reflexivity.
  - rewrite encode_eq.
    destruct (find TABLE_KEY_SPLIT table) as [pos|] eqn:F.
    + destruct (find_Some_split _ _ _ F) as (t1 & t2 & -> & _ & Hn).
      rewrite KeyCodecMore.app_assoc_split, (decode_split _ _ Hn).
      assert (Hk : empty (t2 +:+ String TABLE_KEY_SPLIT EmptyString) = false)
        by (destruct t2; reflexivity).
      rewrite Hk, orb_false_r.
      destruct t1 as [|a t1]; simpl empty; cbv iota.
      * split; [intros _; right; now exists t2 | reflexivity].
      * split; [discriminate|].
        intros [Hs | [rest E]].
        -- apply no_split_find in Hs. rewrite F in Hs. discriminate.
        -- change (String a (t1 +:+ String TABLE_KEY_SPLIT t2)
                   = String TABLE_KEY_SPLIT rest) in E.
           injection E as -> _. cbn in Hn. discriminate Hn.
    + rewrite (decode_split _ _ F), orb_true_r.
      split; [intros _; left; now apply no_split_find | reflexivity].
  - rewrite encode_eq.
    destruct (find TABLE_KEY_SPLIT table) as [pos|] eqn:F.
    + destruct (find_Some_split _ _ _ F) as (t1 & t2 & -> & _ & Hn).
      rewrite KeyCodecMore.app_assoc_split, (decode_split _ _ Hn).
      assert (Hk : empty (t2 +:+ String TABLE_KEY_SPLIT EmptyString) = false)
        by (destruct t2; reflexivity).
      rewrite Hk, orb_false_r.
      destruct (empty t1); [now left|].
      right. exists t1, t2. split; [reflexivity|].
      split; [now apply no_split_find | reflexivity].
    + left. now rewrite (decode_split _ _ F), orb_true_r.
Qed.

Lemma encode_of_empty_is_rejected_witness :
  decode (encode ("", "key")) = inl InvalidStateKey /\
  decode (encode ("s_tables", "")) = inl InvalidStateKey /\
  decode (encode (":b", "")) = inl InvalidStateKey /\
  decode (encode ("a:b", "")) = inr ("a", "b:") /\
  ~ (~ has_split "a:b" \/ exists rest, "a:b" = String TABLE_KEY_SPLIT rest).
Proof.
  split; [exact (proj1 (encode_of_empty_is_rejected "" "key"))|].
  split.
  { apply (proj1 (proj2 (encode_of_empty_is_rejected "s_tables" ""))).
    left. apply no_split_find. reflexivity. }
  split.
  { apply (proj1 (proj2 (encode_of_empty_is_rejected ":b" ""))).
    right. now exists "b". }
  split.
  { destruct (proj1 (proj2 (proj2 (encode_of_empty_is_rejected "a:b" ""))))
      as [H | (t1 & t2 & _ & _ & H)]; [discriminate H | reflexivity]. }
  intros H. apply (proj1 (proj2 (encode_of_empty_is_rejected "a:b" ""))) in H.
  discriminate H.
Defined.

End KeyCodecEdge.
